(** * Right-click message menu: a shallow embedding of [index.js]

    The extension reads the action buttons of a chat message, derives a label
    for each from its tooltip, builds a floating menu, places it next to the
    pointer and replays clicks on the original buttons.  This file embeds the
    functions [parse_tooltip], [get_buttons], [get_edit_buttons],
    [set_menu_position], [update_menu], [handle_interaction] and the listeners
    installed by [init_menu] and [bind_setting], and states the properties of
    the specification about them. *)

From Stdlib Require Import ZArith NArith String Ascii Lia.
From stdpp Require Import base numbers option list strings gmap.

Open Scope Z_scope.

(** ** JavaScript strings

    A JavaScript string is a sequence of UTF-16 code units.  The regular
    expressions and [trim] of the source classify single code units, so a code
    unit is kept as a number. *)

Abbreviation jsstring := (list N).

Fixpoint str (s : string) : jsstring :=
  match s with
  | EmptyString => []
  | String a s' => N_of_ascii a :: str s'
  end.

Definition HYPHEN : N := 45.
Definition LPAREN : N := 40.
Definition RPAREN : N := 41.

(** ECMAScript [LineTerminator]: LF, CR, LS, PS. *)
Definition is_line_terminator (c : N) : bool :=
  ((c =? 10) || (c =? 13) || (c =? 8232) || (c =? 8233))%N.

(** ECMAScript [WhiteSpace]: TAB, VT, FF, SP, NBSP, ZWNBSP and the space
    separators of Unicode. *)
Definition is_white_space (c : N) : bool :=
  ((c =? 9) || (c =? 11) || (c =? 12) || (c =? 32) || (c =? 160)
   || (c =? 5760) || ((8192 <=? c) && (c <=? 8202))
   || (c =? 8239) || (c =? 8287) || (c =? 12288) || (c =? 65279))%N.

(** The class [\s] of a regular expression, also what [trim] removes. *)
Definition regex_s (c : N) : bool := is_white_space c || is_line_terminator c.

(** The atom [.] of a regular expression without the [s] flag. *)
Definition regex_dot (c : N) : bool := negb (is_line_terminator c).

(** [String.prototype.trim]. *)
Fixpoint trimStart (s : jsstring) : jsstring :=
  match s with
  | c :: s' => if regex_s c then trimStart s' else s
  | [] => []
  end.

Definition trimEnd (s : jsstring) : jsstring := reverse (trimStart (reverse s)).

Definition trim (s : jsstring) : jsstring := trimEnd (trimStart s).

(** Relative index of [slice] and [splice]: negative counts from the end,
    everything is clamped to [0, len]. *)
Definition relative_index (len k : Z) : Z :=
  if k <? 0 then Z.max (len + k) 0 else Z.min k len.

(** [String.prototype.slice(start, end)]; [None] is an omitted [end]. *)
Definition slice (s : jsstring) (start : Z) (end_ : option Z) : jsstring :=
  let len := Z.of_nat (length s) in
  let from := relative_index len start in
  let to := match end_ with Some e => relative_index len e | None => len end in
  take (Z.to_nat (to - from)) (drop (Z.to_nat from) s).

(** ** The two regular expressions of [parse_tooltip] *)

(** [\s-\s] matched at the head of [s]. *)
Definition dash_here (s : jsstring) : bool :=
  match s with
  | a :: b :: c :: _ => regex_s a && (b =? HYPHEN)%N && regex_s c
  | _ => false
  end.

(** [.*\)\s*$] matched against the whole of [s]: either the closing
    parenthesis is here and only white space follows, or [.] takes one more
    code unit. *)
Fixpoint close_here (s : jsstring) : bool :=
  match s with
  | [] => false
  | c :: s' =>
      ((c =? RPAREN)%N && forallb regex_s s') || (regex_dot c && close_here s')
  end.

(** [\(.*\)\s*$] matched at the head of [s]. *)
Definition group_here (s : jsstring) : bool :=
  match s with
  | c :: s' => (c =? LPAREN)%N && close_here s'
  | [] => false
  end.

(** The expression of [search], an alternation of [\s-\s] and of the group
    anchored at the end, matched at the head of [s]: the anchor [$] belongs to
    the second alternative only. *)
Definition delimiter_here (s : jsstring) : bool := dash_here s || group_here s.

(** [String.prototype.search]: the index of the leftmost position at which
    the expression matches, [-1] when there is none. *)
Fixpoint search_from (i : Z) (s : jsstring) : Z :=
  if delimiter_here s then i
  else match s with
       | [] => -1
       | _ :: s' => search_from (i + 1) s'
       end.

Definition search (s : jsstring) : Z := search_from 0 s.

(** [.replace(/\s-\s|^\(|\)$/g, '')]: a left-to-right scan that deletes every
    match and resumes after it.  [skip] counts the code units of a match that
    are still to be dropped, [at_start] says that the scan is at index 0. *)
Fixpoint replace_markers (skip : nat) (at_start : bool) (s : jsstring) : jsstring :=
  match s with
  | [] => []
  | c :: s' =>
      match skip with
      | S k => replace_markers k false s'
      | O =>
          if dash_here s then replace_markers 2 false s'
          else if at_start && (c =? LPAREN)%N then replace_markers 0 false s'
          else if (c =? RPAREN)%N && bool_decide (s' = []) then replace_markers 0 false s'
          else c :: replace_markers 0 false s'
      end
  end.

Definition strip_markers (s : jsstring) : jsstring := replace_markers 0 true s.

(** ** Property lookup on the override table

    [button_name_map] is an object literal, and [button_name_map[tooltip]] is
    a property read: an own property first, then the members that every
    object literal inherits from [Object.prototype]. *)

Inductive value :=
| VString (s : jsstring)
| VInherited (name : jsstring).

#[global] Instance value_eq_dec : EqDecision value.
Proof. solve_decision. Defined.

Definition button_name_map : gmap jsstring jsstring :=
  {[ str "Exclude message from prompts" := str "Exclude from prompts" ]}.

Definition Object_prototype : list jsstring :=
  str <$> [ "constructor"; "hasOwnProperty"; "isPrototypeOf";
            "propertyIsEnumerable"; "toLocaleString"; "toString"; "valueOf";
            "__proto__"; "__defineGetter__"; "__defineSetter__";
            "__lookupGetter__"; "__lookupSetter__" ]%string.

Definition get_property (o : gmap jsstring jsstring) (key : jsstring) : option value :=
  match o !! key with
  | Some v => Some (VString v)
  | None =>
      if bool_decide (key ∈ Object_prototype) then Some (VInherited key) else None
  end.

(** Truthiness of what a property read returns: [undefined] and the empty
    string are falsy, functions and objects are truthy. *)
Definition truthy (v : option value) : bool :=
  match v with
  | Some (VString s) => negb (bool_decide (s = []))
  | Some (VInherited _) => true
  | None => false
  end.

(** ** parse_tooltip *)

Record label := Label { text : value; title : jsstring }.

(** The argument is [None] for an absent ([undefined]) tooltip. *)
Definition parse_tooltip (tooltip : option jsstring) : label :=
  match tooltip with
  | None | Some [] => Label (VString []) []
  | Some tooltip =>
      let mapped := get_property button_name_map tooltip in
      let parsed :=
        let idx := search tooltip in
        if bool_decide (idx ≠ -1)
        then Label (VString (trim (slice tooltip 0 (Some idx))))
                   (strip_markers (slice tooltip idx None))
        else Label (VString tooltip) [] in
      match mapped with
      | Some m => if truthy mapped then Label m tooltip else parsed
      | None => parsed
      end
  end.

(** ** DOM elements and the values an array holds *)

Record element := Element {
  node : nat;                          (* identity of the DOM node *)
  classList : list jsstring;
  title_prop : jsstring;                 (* [.prop('title')] *)
  data_sttt_title : option jsstring;   (* [.attr('data-sttt--title')] *)
  svg : list nat                       (* [.find("svg")] *)
}.

#[global] Instance element_eq_dec : EqDecision element.
Proof. solve_decision. Defined.

(** A message [div.mes]: its [mesid] attribute and, in document order, the
    descendants of its [.mes_buttons] and [.mes_edit_buttons] toolbars and
    the [textarea.edit_textarea] of its block. *)
Record message := Message {
  mesid : option jsstring;
  mes_buttons : list element;
  mes_edit_buttons : list element;
  edit_textarea : list element
}.

Inductive jsval :=
| Undefined
| Node (e : element)
| JQuery (selection : list element).

#[global] Instance jsval_eq_dec : EqDecision jsval.
Proof. solve_decision. Defined.

(** [===].  DOM nodes are compared by identity.  A jQuery object is compared
    by identity too; the only one the source compares is freshly allocated by
    [.filter], so it is identical to nothing that an array already holds. *)
Definition strict_equals (a b : jsval) : bool :=
  match a, b with
  | Undefined, Undefined => true
  | Node x, Node y => bool_decide (node x = node y)
  | _, _ => false
  end.

(** [Array.prototype.indexOf]. *)
Fixpoint indexOf_from (i : Z) (a : list jsval) (x : jsval) : Z :=
  match a with
  | [] => -1
  | y :: a' => if strict_equals y x then i else indexOf_from (i + 1) a' x
  end.

Definition indexOf (a : list jsval) (x : jsval) : Z := indexOf_from 0 a x.

(** [Array.prototype.splice(start, deleteCount, ...items)]: the array after
    the call. *)
Definition splice (a : list jsval) (start deleteCount : Z) (items : list jsval)
  : list jsval :=
  let len := Z.of_nat (length a) in
  let from := relative_index len start in
  let count := Z.min (Z.max deleteCount 0) (len - from) in
  take (Z.to_nat from) a ++ items ++ drop (Z.to_nat (from + count)) a.

(** [$sel[0]]. *)
Definition first_of (sel : list element) : jsval :=
  match sel with
  | e :: _ => Node e
  | [] => Undefined
  end.

Definition has_class (c : string) (e : element) : Prop := str c ∈ classList e.

#[global] Instance has_class_dec c e : Decision (has_class c e).
Proof. unfold has_class. apply _. Defined.

(** ** Listeners and what they do to the host *)

(** [Number(id)] for the value of the [mesid] attribute, kept symbolic. *)
Inductive jsnumber := Number (arg : option jsstring).

Inductive event_type := click | pointerup.

(** The one listener the extension binds on elements of the host page:
    [() => { setEditedMessageId(Number(id)) }], closed over [id]. *)
Inductive listener := SetEdited (id : option jsstring).

Inductive effect :=
| setEditedMessageId (n : jsnumber)
| preventDefault
| HostDispatch (ev : event_type) (target : nat).

(** ** Settings *)

Inductive setting_value :=
| SString (s : jsstring)
| SBool (b : bool)
| SNumber (n : Z).

#[global] Instance setting_value_eq_dec : EqDecision setting_value.
Proof. solve_decision. Defined.

Definition default_settings : gmap jsstring setting_value :=
  {[ str "menu_mode" := SString (str "vertical");
     str "debug_mode" := SBool false;
     str "max_width_horizontal" := SNumber 220;
     str "hide_message_buttons" := SBool false ]}.

Definition setting_truthy (v : option setting_value) : bool :=
  match v with
  | Some (SString s) => negb (bool_decide (s = []))
  | Some (SBool b) => b
  | Some (SNumber n) => negb (n =? 0)
  | None => false
  end.

(** ** The menu *)

Inductive icon :=
| SvgClone (svgs : list nat)
| FaIcon (classes : list jsstring).

(** The two templates of an item: a [span] with text and title in vertical
    mode, a bare [div.mes_button] that carries the tooltip otherwise.  The
    fields are the strings that the template interpolates; [item_html] below
    is the markup they give. *)
Inductive item_body :=
| VerticalItem (text : value) (title : jsstring)
| HorizontalItem (title : option jsstring).

(** One [$menu_item] of the loop of [update_menu]: the selection that
    [$()] makes of the template, which gets the icon and the click listener
    and is appended to the menu.  [source] is the [$button] that the listener
    closes over.  The DOM nodes that the selection holds are [item_nodes]
    below. *)
Record menu_item := MenuItem {
  item_icon : icon;
  item_body_of : item_body;
  source : element
}.

(** The value handed to [.css('max-width', ...)]: ['unset'], or the setting
    followed by [px].  Whether the browser takes the declaration is not part
    of the model. *)
Inductive css_length := Unset | Px (v : option setting_value).

Record menu := Menu {
  menu_classes : list jsstring;
  max_width : css_length;
  items : list menu_item;              (* the selections appended, in order *)
  display_none : bool;
  left : option Z;
  top : option Z
}.

Definition vertical_menu_class : jsstring := str "right_click_message_menu_vertical".
Definition horizontal_menu_class : jsstring := str "right_click_message_menu_horizontal".

(** The [div] that [update_menu] creates when the page has none. *)
Definition new_menu : menu :=
  Menu [str "options-content"; str "popup"] Unset [] true None None.

(** ** The page *)

Record page := Page {
  extension_settings : gmap jsstring setting_value;
  computed_display : gmap nat jsstring;
  click_listeners : gmap nat (list listener);
  the_menu : option menu;
  last_tap : Z;
  screen : Z * Z;
  effects : list effect
}.

Definition set_menu (p : page) (m : option menu) : page :=
  Page (extension_settings p) (computed_display p) (click_listeners p) m
       (last_tap p) (screen p) (effects p).

Definition set_listeners (p : page) (ls : gmap nat (list listener)) : page :=
  Page (extension_settings p) (computed_display p) ls (the_menu p)
       (last_tap p) (screen p) (effects p).

Definition set_last_tap (p : page) (t : Z) : page :=
  Page (extension_settings p) (computed_display p) (click_listeners p) (the_menu p)
       t (screen p) (effects p).

(** [extension_settings[MODULE_NAME][key] = value], on the store that
    [initialize_settings] has made before any listener runs.  The keys that
    the program writes are the literals of [bind_setting], which name no
    member of [Object.prototype]. *)
Definition set_settings (p : page) (key : jsstring) (v : setting_value) : page :=
  Page (<[key := v]> (extension_settings p)) (computed_display p) (click_listeners p)
       (the_menu p) (last_tap p) (screen p) (effects p).

Definition emit (p : page) (e : effect) : page :=
  Page (extension_settings p) (computed_display p) (click_listeners p) (the_menu p)
       (last_tap p) (screen p) (effects p ++ [e]).

(** [extension_settings[MODULE_NAME]?.[key] ?? default_settings[key]], for
    the literal keys that the program reads.  A stored value is a string, a
    boolean or a number, never [null]. *)
Definition get_settings (p : page) (key : string) : option setting_value :=
  match extension_settings p !! str key with
  | Some v => Some v
  | None => default_settings !! str key
  end.

Definition menu_mode_is (p : page) (mode : string) : bool :=
  bool_decide (get_settings p "menu_mode" = Some (SString (str mode))).

(** [$(e).css('display')]. *)
Definition css_display (p : page) (e : element) : option jsstring :=
  computed_display p !! node e.

Definition hidden (p : page) (e : element) : Prop :=
  css_display p e = Some (str "none").

#[global] Instance hidden_dec p e : Decision (hidden p e).
Proof. unfold hidden. apply _. Defined.

(** [$targets.on('click', l)]: one more listener on every target, after the
    ones it has. *)
Definition on_click (l : listener) (p : page) (targets : list element) : page :=
  foldl (fun q e =>
           set_listeners q
             (<[node e := default [] (click_listeners q !! node e) ++ [l]]>
                (click_listeners q)))
        p targets.

(** ** The button collector *)

Definition get_buttons (p : page) (message_div : message) : page * list jsval :=
  let buttons :=
    filter (fun e => has_class "mes_button" e ∧ ¬ has_class "extraMesButtonsHint" e)
           (mes_buttons message_div) in
  let array := Node <$> buttons in
  let edit := filter (has_class "mes_edit") buttons in
  let delete := filter (has_class "mes_edit_delete") (mes_edit_buttons message_div) in
  let id := mesid message_div in
  let p := on_click (SetEdited id) p delete in
  if bool_decide (0 < length edit)%nat then
    let at_index := indexOf array (JQuery edit) in
    let array := splice array at_index 1 [] in
    let array := splice array 0 0 [first_of edit] in
    let array := array ++ [first_of delete] in
    (p, array)
  else (p, Node <$> buttons).

Definition get_edit_buttons (message_div : message) : list jsval :=
  Node <$> filter (has_class "menu_button") (mes_edit_buttons message_div).

(** ** The menu builder *)

Inductive completion := Normal | Thrown.

(** [$button.prop('title') || $button.attr('data-sttt--title')]. *)
Definition tooltip_of (e : element) : option jsstring :=
  if bool_decide (title_prop e = []) then data_sttt_title e else Some (title_prop e).

Definition icon_classes (e : element) : list jsstring :=
  filter (fun cls => str "fa-" `prefix_of` cls) (classList e).

Definition make_item (vertical : bool) (e : element) : menu_item :=
  let tooltip := tooltip_of e in
  let body :=
    if vertical
    then let l := parse_tooltip tooltip in VerticalItem (text l) (title l)
    else HorizontalItem tooltip in
  let ic := if bool_decide (svg e = []) then FaIcon (icon_classes e) else SvgClone (svg e) in
  MenuItem ic body e.

(** The loop of [update_menu] over [$buttons]; [its] are the selections
    appended to the menu so far, one for each pass that reached
    [$menu.append($menu_item)].  Reading [classList] of a value that is no DOM
    node is a [TypeError], which leaves the loop with the items appended so
    far. *)
Fixpoint add_items (p : page) (vertical : bool) (buttons : list jsval)
    (its : list menu_item) : list menu_item * completion :=
  match buttons with
  | [] => (its, Normal)
  | Node e :: rest =>
      if bool_decide (hidden p e) then add_items p vertical rest its
      else add_items p vertical rest (its ++ [make_item vertical e])
  | JQuery (e :: _) :: rest =>
      if bool_decide (hidden p e) then add_items p vertical rest its
      else (its, Thrown)
  | _ :: _ => (its, Thrown)
  end.

Definition removeClass (cs : list jsstring) (m : menu) : menu :=
  Menu (filter (fun c => c ∉ cs) (menu_classes m)) (max_width m) (items m)
       (display_none m) (left m) (top m).

Definition addClass (c : jsstring) (m : menu) : menu :=
  Menu (if bool_decide (c ∈ menu_classes m) then menu_classes m else menu_classes m ++ [c])
       (max_width m) (items m) (display_none m) (left m) (top m).

Definition set_max_width (w : css_length) (m : menu) : menu :=
  Menu (menu_classes m) w (items m) (display_none m) (left m) (top m).

Definition set_items (its : list menu_item) (m : menu) : menu :=
  Menu (menu_classes m) (max_width m) its (display_none m) (left m) (top m).

Definition set_display_none (b : bool) (m : menu) : menu :=
  Menu (menu_classes m) (max_width m) (items m) b (left m) (top m).

Definition update_menu (p : page) (message_div : message) (edit : bool)
  : page * completion :=
  let m := match the_menu p with
           | None => new_menu
           | Some m => set_items [] m
           end in
  let m := removeClass [vertical_menu_class; horizontal_menu_class] m in
  if menu_mode_is p "disabled" then (set_menu p (Some m), Normal)
  else
    let m := if menu_mode_is p "horizontal"
             then addClass horizontal_menu_class
                    (set_max_width (Px (get_settings p "max_width_horizontal")) m)
             else addClass vertical_menu_class (set_max_width Unset m) in
    let p := set_menu p (Some m) in
    let '(p, buttons) := if edit then (p, get_edit_buttons message_div)
                         else get_buttons p message_div in
    let '(its, c) := add_items p (menu_mode_is p "vertical") buttons [] in
    (set_menu p (Some (set_items its m)), c).

(** ** The positioner and the listeners *)

Record pointer_event := PointerEvent {
  target_message : message;     (* [e.currentTarget.parentNode.parentNode] *)
  pageX : option Z;             (* [None] where the event has no such field *)
  pageY : option Z
}.

(** What the [change] listeners of [bind_setting] store, by bound key and
    declared type; a text value is the one [unescape_string] returned. *)
Inductive change :=
| change_menu_mode (v : jsstring)
| change_max_width (n : Z)
| change_hide_message_buttons (b : bool)
| change_double_tap (b : bool)
| change_debug_mode (b : bool).

Inductive ui_event :=
| contextmenu (e : pointer_event)
| touchend (e : pointer_event) (current_time : Z)
| document_click
| item_click (i : nat)
| setting_change (c : change).

Section Browser.

(** The size of the box that the layout engine gives the menu when it is
    rendered. *)
Variable layout : menu -> Z * Z.

(** An element with [display: none] has an all-zero bounding rectangle. *)
Definition getBoundingClientRect (m : menu) : Z * Z :=
  if display_none m then (0, 0) else layout m.

(** One axis of [set_menu_position]. *)
Definition flip (mouse : option Z) (size limit : Z) : option Z :=
  match mouse with
  | Some pos => Some (if pos + size >? limit then pos - size else pos)
  | None => None
  end.

(** A length that is no number gives an invalid declaration, which leaves
    the property as it was. *)
Definition css_px (new old : option Z) : option Z :=
  match new with
  | Some v => Some v
  | None => old
  end.

Definition set_menu_position (p : page) (mouse_x mouse_y : option Z)
  : page * completion :=
  match the_menu p with
  | None => (p, Thrown)
  | Some m =>
      let rect := getBoundingClientRect m in
      let x_pos := flip mouse_x (fst rect) (fst (screen p)) in
      let y_pos := flip mouse_y (snd rect) (snd (screen p)) in
      (set_menu p (Some (Menu (menu_classes m) (max_width m) (items m)
                              (display_none m)
                              (css_px x_pos (left m)) (css_px y_pos (top m)))),
       Normal)
  end.

Definition show (p : page) : page * completion :=
  match the_menu p with
  | None => (p, Thrown)
  | Some m => (set_menu p (Some (set_display_none false m)), Normal)
  end.

Definition handle_interaction (p : page) (e : pointer_event) : page * completion :=
  if menu_mode_is p "disabled" then (p, Normal)
  else
    let p := emit p preventDefault in
    let message := target_message e in
    let textbox := edit_textarea message in
    match update_menu p message (bool_decide (0 < length textbox)%nat) with
    | (p, Thrown) => (p, Thrown)
    | (p, Normal) =>
        match set_menu_position p (pageX e) (pageY e) with
        | (p, Thrown) => (p, Thrown)
        | (p, Normal) => show p
        end
    end.

(** The three listeners of [init_menu]. *)
Definition on_contextmenu (p : page) (e : pointer_event) : page * completion :=
  if negb (setting_truthy (get_settings p "double_tap"))
  then handle_interaction p e
  else (p, Normal).

Definition on_touchend (p : page) (e : pointer_event) (current_time : Z)
  : page * completion :=
  let tap_length := current_time - last_tap p in
  let '(p, c) :=
    if (tap_length <? 300) && (tap_length >? 0)
    then if setting_truthy (get_settings p "double_tap")
         then handle_interaction p e
         else (p, Normal)
    else (p, Normal) in
  match c with
  | Normal => (set_last_tap p current_time, Normal)
  | Thrown => (p, Thrown)
  end.

Definition on_document_click (p : page) : page :=
  if menu_mode_is p "disabled" then p
  else match the_menu p with
       | None => p
       | Some m => if display_none m then p
                   else set_menu p (Some (set_display_none true m))
       end.

(** The [change] listener of [bind_setting]: [set_settings(key, value)]. *)
Definition on_change (p : page) (c : change) : page :=
  match c with
  | change_menu_mode v => set_settings p (str "menu_mode") (SString v)
  | change_max_width n => set_settings p (str "max_width_horizontal") (SNumber n)
  | change_hide_message_buttons b => set_settings p (str "hide_message_buttons") (SBool b)
  | change_double_tap b => set_settings p (str "double_tap") (SBool b)
  | change_debug_mode b => set_settings p (str "debug_mode") (SBool b)
  end.

Definition run_listener (p : page) (l : listener) : page :=
  match l with
  | SetEdited id => emit p (setEditedMessageId (Number id))
  end.

(** [$button.click()] and [$button.trigger('pointerup')].  The listeners
    bound on the button itself run first, in the order of their registration.
    The host page handles the events of its own buttons with listeners that
    are not part of this repository; that handling is recorded as
    [HostDispatch], after the listeners on the button, which is the order the
    specification gives: first the edit context, then the deletion.  A click
    then reaches the document, where the listener of [init_menu] runs.

    [HostDispatch] records the call that the source makes, not who hears it.
    For a click, jQuery runs its handlers and then calls the [click()] method
    of the node, so every listener of the host hears it.  A node has no
    method named [pointerup]: the trigger runs the handlers bound through
    jQuery on the button and on its ancestors and dispatches no DOM event,
    so a listener bound with [addEventListener] does not hear it. *)
Definition trigger (p : page) (ev : event_type) (e : element) : page :=
  match ev with
  | click =>
      let p := foldl run_listener p (default [] (click_listeners p !! node e)) in
      on_document_click (emit p (HostDispatch click (node e)))
  | pointerup => emit p (HostDispatch pointerup (node e))
  end.

(** A click on a menu item: the listener of the item replays it on the
    source button as a click and a pointerup, then the click itself reaches
    the document. *)
Definition activate (p : page) (it : menu_item) : page :=
  on_document_click (trigger (trigger p click (source it)) pointerup (source it)).

Definition step (p : page) (ev : ui_event) : page :=
  match ev with
  | contextmenu e => fst (on_contextmenu p e)
  | touchend e t => fst (on_touchend p e t)
  | document_click => on_document_click p
  | item_click i =>
      match the_menu p with
      | Some m => match items m !! i with
                  | Some it => activate p it
                  | None => p
                  end
      | None => p
      end
  | setting_change c => on_change p c
  end.

Definition run (p : page) (evs : list ui_event) : page := foldl step p evs.

End Browser.

(** ** The markup of an item and the nodes that jQuery makes of it

    [update_menu] writes the tooltip of a button into a template literal and
    hands the text to [$()].  For markup with attributes jQuery (3.5 or later,
    where [htmlPrefilter] is the identity) assigns the text to [innerHTML] of a
    detached [div] and takes every child node of that [div], text nodes
    included: these nodes are the selection [$menu_item], and
    [$menu.append($menu_item)] appends them all.

    The parser below follows the tokenizer and the "in body" insertion mode
    of the HTML Standard for the part of the language that the templates use:
    [div] and [span] tags in lower case, attributes with a value in double
    quotes, and text.  It answers [None] for any other markup.  It keeps the
    top-level nodes only, which is what the selection holds. *)

Definition QUOTE : N := 34.
Definition LESS_THAN : N := 60.
Definition GREATER_THAN : N := 62.
Definition EQUALS_SIGN : N := 61.
Definition SPACE : N := 32.
Definition SOLIDUS : N := 47.

Definition horizontal_item_class : jsstring := str "right_click_message_menu_item".

(** The text that [update_menu] hands to [$()] for an item.  The text of a
    label that is a member of [Object.prototype] is the source text of a
    native function, which the engine chooses: it is left out. *)
Definition item_html (b : item_body) : option jsstring :=
  match b with
  | VerticalItem (VString text) title =>
      Some (str "<div class=" ++ [QUOTE]
            ++ str "flex-container list-group-item " ++ horizontal_item_class ++ [QUOTE]
            ++ str "><span title=" ++ [QUOTE] ++ title ++ [QUOTE] ++ str ">"
            ++ text ++ str "</span></div>")
  | VerticalItem (VInherited _) _ => None
  | HorizontalItem tooltip =>
      Some (str "<div class=" ++ [QUOTE] ++ str "mes_button" ++ [QUOTE]
            ++ str " title=" ++ [QUOTE] ++ default (str "undefined") tooltip ++ [QUOTE]
            ++ str "></div>")
  end.

Inductive tag := Div | Span.

#[global] Instance tag_eq_dec : EqDecision tag.
Proof. solve_decision. Defined.

(** A child node of the detached [div]. *)
Inductive top_node := TopElement (t : tag) | TopText.

Inductive tokenizer_state :=
| Data
| TagOpen
| EndTagOpen
| TagName
| EndTagName
| BeforeAttributeName
| AttributeName
| BeforeAttributeValue
| AttributeValue
| AfterAttributeValue.

(** [open_elements] is the stack of open elements above the root, innermost
    first; [top_nodes] are the children of the root so far, latest first. *)
Record parser := Parser {
  tokenizer : tokenizer_state;
  tag_name : jsstring;
  open_elements : list tag;
  top_nodes : list top_node
}.

Definition is_lower_alpha (c : N) : bool := ((97 <=? c) && (c <=? 122))%N.

Definition tag_of_name (name : jsstring) : option tag :=
  if bool_decide (name = str "div") then Some Div
  else if bool_decide (name = str "span") then Some Span
  else None.

(** A character token in the body: U+0000 is ignored, any other character
    goes to the text node at the end of the current node, which is made when
    there is none. *)
Definition insert_character (c : N) (st : parser) : parser :=
  if (c =? 0)%N then st
  else match open_elements st, top_nodes st with
       | [], TopText :: _ => st
       | [], tops => Parser (tokenizer st) (tag_name st) [] (TopText :: tops)
       | _ :: _, _ => st
       end.

(** A start tag: the element becomes a child of the current node. *)
Definition start_tag (t : tag) (st : parser) : parser :=
  Parser Data [] (t :: open_elements st)
         (match open_elements st with
          | [] => TopElement t :: top_nodes st
          | _ :: _ => top_nodes st
          end).

Fixpoint pop_until_div (open : list tag) : list tag :=
  match open with
  | [] => []
  | Div :: rest => rest
  | Span :: rest => pop_until_div rest
  end.

(** An end tag.  [</div>] is ignored when no [div] is open, and closes
    everything up to the innermost open [div] otherwise.  [</span>] closes
    the current node when that is a [span] and is ignored when it is a [div],
    a special element, or the root. *)
Definition end_tag (t : tag) (st : parser) : parser :=
  let open := open_elements st in
  Parser Data []
         (match t with
          | Div => if bool_decide (Div ∈ open) then pop_until_div open else open
          | Span => match open with
                    | Span :: rest => rest
                    | _ => open
                    end
          end)
         (top_nodes st).

Definition step_parser (st : parser) (c : N) : option parser :=
  let continue s := Some (Parser s (tag_name st) (open_elements st) (top_nodes st)) in
  let name s := Some (Parser s (tag_name st ++ [c]) (open_elements st) (top_nodes st)) in
  match tokenizer st with
  | Data =>
      if (c =? LESS_THAN)%N then continue TagOpen else Some (insert_character c st)
  | TagOpen =>
      if (c =? SOLIDUS)%N then continue EndTagOpen
      else if is_lower_alpha c then name TagName
      else None
  | EndTagOpen =>
      if is_lower_alpha c then name EndTagName else None
  | TagName =>
      if is_lower_alpha c then name TagName
      else match tag_of_name (tag_name st) with
           | Some t => if (c =? GREATER_THAN)%N then Some (start_tag t st)
                       else if (c =? SPACE)%N then continue BeforeAttributeName
                       else None
           | None => None
           end
  | EndTagName =>
      if is_lower_alpha c then name EndTagName
      else match tag_of_name (tag_name st) with
           | Some t => if (c =? GREATER_THAN)%N then Some (end_tag t st) else None
           | None => None
           end
  | BeforeAttributeName =>
      if is_lower_alpha c then continue AttributeName else None
  | AttributeName =>
      if is_lower_alpha c || (c =? HYPHEN)%N then continue AttributeName
      else if (c =? EQUALS_SIGN)%N then continue BeforeAttributeValue
      else None
  | BeforeAttributeValue =>
      if (c =? QUOTE)%N then continue AttributeValue else None
  | AttributeValue =>
      if (c =? QUOTE)%N then continue AfterAttributeValue else continue AttributeValue
  | AfterAttributeValue =>
      match tag_of_name (tag_name st) with
      | Some t => if (c =? GREATER_THAN)%N then Some (start_tag t st)
                  else if (c =? SPACE)%N then continue BeforeAttributeName
                  else None
      | None => None
      end
  end.

Fixpoint run_parser (st : parser) (html : jsstring) : option parser :=
  match html with
  | [] => Some st
  | c :: rest =>
      match step_parser st c with
      | Some st' => run_parser st' rest
      | None => None
      end
  end.

(** The child nodes of the detached [div] after [innerHTML = html]. *)
Definition parseHTML (html : jsstring) : option (list top_node) :=
  match run_parser (Parser Data [] [] []) html with
  | Some st => match tokenizer st with
               | Data => Some (reverse (top_nodes st))
               | _ => None
               end
  | None => None
  end.

(** The nodes of the selection [$menu_item]. *)
Definition item_nodes (it : menu_item) : option (list top_node) :=
  match item_html (item_body_of it) with
  | Some html => parseHTML html
  | None => None
  end.

(** The child nodes of the menu after the items [its] were appended. *)
Fixpoint menu_nodes (its : list menu_item) : option (list top_node) :=
  match its with
  | [] => Some []
  | it :: rest =>
      match item_nodes it, menu_nodes rest with
      | Some nodes, Some more => Some (nodes ++ more)
      | _, _ => None
      end
  end.

(** ** Vocabulary of the properties *)

(** [\s-\s] begins at index [i] of [s]. *)
Definition dash_at (s : jsstring) (i : nat) : Prop :=
  ∃ a c, s !! i = Some a ∧ s !! S i = Some HYPHEN ∧ s !! S (S i) = Some c
         ∧ regex_s a = true ∧ regex_s c = true.

(** A parenthesised group begins at index [i] of [s] and reaches the end of
    [s], up to trailing white space. *)
Definition group_at (s : jsstring) (i : nat) : Prop :=
  ∃ inner ws, drop i s = LPAREN :: inner ++ RPAREN :: ws
              ∧ Forall (fun c => regex_dot c = true) inner
              ∧ Forall (fun c => regex_s c = true) ws.

Definition delimiter_at (s : jsstring) (i : nat) : Prop := dash_at s i ∨ group_at s i.

Definition first_delimiter (s : jsstring) (i : nat) : Prop :=
  delimiter_at s i ∧ ∀ j, delimiter_at s j → (i ≤ j)%nat.


(** [parse_tooltip] splits [s] at index [i]. *)
Definition splits_at (s : jsstring) (i : nat) : Prop :=
  parse_tooltip (Some s)
  = Label (VString (trim (take i s))) (strip_markers (drop i s)).

(** The code units that the two expressions of [parse_tooltip] and [trim]
    can remove. *)
Definition is_marker (c : N) : bool :=
  regex_s c || (c =? HYPHEN)%N || (c =? LPAREN)%N || (c =? RPAREN)%N.

Definition kept (c : N) : Prop := is_marker c = false.

#[global] Instance kept_dec c : Decision (kept c).
Proof. unfold kept. apply _. Defined.




(** An item whose interpolated strings end neither the attribute value nor
    the text they are written into: no double quote in the title, no [<] in
    the text. *)
Definition plain_item (it : menu_item) : Prop :=
  match item_body_of it with
  | VerticalItem (VString text) title => (QUOTE ∉ title) ∧ (LESS_THAN ∉ text)
  | VerticalItem (VInherited _) _ => False
  | HorizontalItem tooltip => QUOTE ∉ default (str "undefined") tooltip
  end.

#[global] Instance plain_item_dec it : Decision (plain_item it).
Proof. unfold plain_item. destruct (item_body_of it) as [[]|]; apply _. Defined.

(** The selection [.mes_buttons .mes_button:not(.extraMesButtonsHint)] and
    the selection [.mes_edit_buttons .mes_edit_delete] of [get_buttons]. *)
Definition selected (m : message) : list element :=
  filter (fun e => has_class "mes_button" e ∧ ¬ has_class "extraMesButtonsHint" e)
         (mes_buttons m).

Definition delete_controls (m : message) : list element :=
  filter (has_class "mes_edit_delete") (mes_edit_buttons m).

(** The DOM nodes among collected values. *)
Definition buttons_of (l : list jsval) : list element :=
  omap (fun v => match v with Node e => Some e | _ => None end) l.

(** The button set that a build iterates over. *)
Definition collected (p : page) (message_div : message) (edit : bool) : list jsval :=
  if edit then get_edit_buttons message_div else snd (get_buttons p message_div).

Definition menu_visible (p : page) : bool :=
  match the_menu p with
  | Some m => negb (display_none m)
  | None => false
  end.

(** The position of the menu box on one axis lies inside [0, limit]. *)
Definition inside (pos : option Z) (size limit : Z) : Prop :=
  ∃ v, pos = Some v ∧ 0 <= v ∧ v + size <= limit.

(** The effect of a listener of the host page when it runs. *)
Definition effect_of (l : listener) : effect :=
  match l with
  | SetEdited id => setEditedMessageId (Number id)
  end.

(** [n] collections on the same message, one after the other. *)
Definition collect_times (n : nat) (message_div : message) (p : page) : page :=
  Nat.iter n (fun q => fst (get_buttons q message_div)) p.

(** ** Concrete pages and messages *)

Module Scenario.

Definition button (n : nat) (cls : list string) (tooltip : string) : element :=
  Element n (str <$> cls) (str tooltip) None [].

Definition edit_button : element :=
  button 2 ["mes_button"; "mes_edit"; "fa-solid"; "fa-pencil"] "Edit".

Definition delete_button : element :=
  button 9 ["menu_button"; "mes_edit_delete"; "fa-solid"; "fa-trash-can"] "Delete".

Definition b0 : element := button 0 ["mes_button"; "mes_translate"; "fa-solid"; "fa-language"] "Translate (Google)".
Definition b1 : element := button 1 ["mes_button"; "mes_hide"; "fa-solid"; "fa-eye"] "Exclude message from prompts".
Definition b3 : element := button 3 ["mes_button"; "mes_copy"; "fa-solid"; "fa-copy"] "Copy".
Definition b4 : element := button 4 ["mes_button"; "mes_bookmark"; "fa-solid"; "fa-flag"] "Create checkpoint".

(** Five buttons, the one tagged "edit" at index 2. *)
Definition five_buttons : message :=
  Message (Some (str "7")) [b0; b1; edit_button; b3; b4]
          [button 8 ["menu_button"; "mes_edit_done"] "Confirm"; delete_button] [].

(** The same toolbar without the edit control. *)
Definition no_edit_button : message :=
  Message (Some (str "7")) [b0; b1; b3; b4]
          [button 8 ["menu_button"; "mes_edit_done"] "Confirm"; delete_button] [].

(** A page on a 400 by 800 screen, nothing built yet, default settings. *)
Definition fresh_page : page := Page ∅ ∅ ∅ None 0 (400, 800) [].

(** The same page with the second button of the toolbar hidden. *)
Definition page_with_hidden_button : page :=
  Page ∅ {[ 1%nat := str "none" ]} ∅ None 0 (400, 800) [].

(** A layout engine that renders every menu 220 wide and 100 high. *)
Definition fixed_layout (m : menu) : Z * Z := (220, 100).

Definition right_click : ui_event :=
  contextmenu (PointerEvent five_buttons (Some 200) (Some 100)).

(** The page after one right-click: the menu is shown. *)
Definition open_page : page := run fixed_layout fresh_page [right_click].

(** A right-click in the default mode, then the mode is set to "disabled"
    from the settings panel. *)
Definition switch_off : list ui_event :=
  [right_click; setting_change (change_menu_mode (str "disabled"))].

(** A page whose stored mode is "disabled". *)
Definition disabled_page : page :=
  set_settings fresh_page (str "menu_mode") (SString (str "disabled")).

Definition gestures : list ui_event :=
  [right_click;
   touchend (PointerEvent five_buttons None None) 1000;
   touchend (PointerEvent five_buttons None None) 1100;
   document_click].

(** The toolbar of the host page: the edit control is its last button. *)
Definition edit_last : message :=
  Message (Some (str "7")) [b0; b1; b3; b4; edit_button]
          [button 8 ["menu_button"; "mes_edit_done"] "Confirm"; delete_button] [].

(** A message with an edit control and no delete control. *)
Definition no_delete_control : message :=
  Message (Some (str "7")) [b0; b1; edit_button]
          [button 8 ["menu_button"; "mes_edit_done"] "Confirm"] [].

(** A page on which double tap is switched on, last tapped at time 500. *)
Definition double_tap_page : page :=
  set_last_tap (set_settings fresh_page (str "double_tap") (SBool true)) 500.

(** A button whose tooltip holds markup, alone on its toolbar. *)
Definition markup_button : element :=
  button 5 ["mes_button"; "fa-solid"; "fa-code"] "a</div><div>b".

Definition markup_message : message :=
  Message (Some (str "7")) [markup_button] [] [].

End Scenario.

(** ** Escaping of setting values

    The settings panel shows a text setting escaped ([escape_string]) and
    stores what is typed unescaped ([unescape_string]). *)

Definition BACKSLASH : N := 92.

(** The class [[\x00-\x1F\x7F]]. *)
Definition is_control (c : N) : bool := ((c <=? 31) || (c =? 127))%N.

Definition hex_digit (d : N) : N := if (d <? 10)%N then (48 + d)%N else (87 + d)%N.

(** [Number.prototype.toString(16)] of a code unit: at most four lowercase
    digits, no leading zero. *)
Fixpoint toString16_digits (fuel : nat) (n : N) : jsstring :=
  match fuel with
  | O => []
  | S f =>
      (if (n / 16 =? 0)%N then [] else toString16_digits f (n / 16))
      ++ [hex_digit (n mod 16)]
  end.

Definition toString16 (n : N) : jsstring := toString16_digits 4 n.

(** [.padStart(2, '0')]. *)
Definition padStart2 (s : jsstring) : jsstring := replicate (2 - length s) 48%N ++ s.

(** The replacement function of [escape_string] on one matched code unit. *)
Definition escape_match (c : N) : jsstring :=
  if (c =? 10)%N then [BACKSLASH; 110%N]            (* \n *)
  else if (c =? 9)%N then [BACKSLASH; 116%N]        (* \t *)
  else if (c =? 13)%N then [BACKSLASH; 114%N]       (* \r *)
  else if (c =? 8)%N then [BACKSLASH; 98%N]         (* \b *)
  else if (c =? 12)%N then [BACKSLASH; 102%N]       (* \f *)
  else [BACKSLASH; 120%N] ++ padStart2 (toString16 c).

Fixpoint escape_chars (s : jsstring) : jsstring :=
  match s with
  | [] => []
  | c :: s' => (if is_control c then escape_match c else [c]) ++ escape_chars s'
  end.

(** [None] is [undefined]; an empty or absent text is returned as it is. *)
Definition escape_string (text : option jsstring) : option jsstring :=
  match text with
  | None => None
  | Some [] => Some []
  | Some s => Some (escape_chars s)
  end.

Definition is_lower_hex (c : N) : bool :=
  (((48 <=? c) && (c <=? 57)) || ((97 <=? c) && (c <=? 102)))%N.

(** [parseInt] of one hexadecimal digit. *)
Definition hex_value (c : N) : N := if (c <=? 57)%N then (c - 48)%N else (c - 87)%N.

(** The class [[ntrbf0x]]. *)
Definition is_long_head (c : N) : bool :=
  ((c =? 110) || (c =? 116) || (c =? 114) || (c =? 98) || (c =? 102)
   || (c =? 48) || (c =? 120))%N.

(** The class [[ntrbf]], with the character each letter stands for. *)
Definition named_escape (c : N) : option N :=
  if (c =? 110)%N then Some 10%N
  else if (c =? 116)%N then Some 9%N
  else if (c =? 114)%N then Some 13%N
  else if (c =? 98)%N then Some 8%N
  else if (c =? 102)%N then Some 12%N
  else None.

(** The first alternative of the expression of [unescape_string], a
    backslash, one of [ntrbf0x] and two lowercase hexadecimal digits, at the
    head of [s]. *)
Definition long_escape_here (s : jsstring) : bool :=
  match s with
  | b :: h :: d1 :: d2 :: _ =>
      (b =? BACKSLASH)%N && is_long_head h && is_lower_hex d1 && is_lower_hex d2
  | _ => false
  end.

(** The second alternative, a backslash and one of [ntrbf], at the head of
    [s]: the character that the replacement function returns for it. *)
Definition short_escape_here (s : jsstring) : option N :=
  match s with
  | b :: h :: _ => if (b =? BACKSLASH)%N then named_escape h else None
  | _ => None
  end.

(** The replacement function on a match of the first alternative: no [case]
    of the [switch] is a string of four code units, so the [default] branch
    runs; it decodes the match when its letter is [x] and returns it as it is
    otherwise. *)
Definition unescape_long (s : jsstring) : jsstring :=
  match s with
  | b :: h :: d1 :: d2 :: _ =>
      if (h =? 120)%N then [(16 * hex_value d1 + hex_value d2)%N]
      else [b; h; d1; d2]
  | _ => []
  end.

(** The global replacement of [unescape_string], a left-to-right scan;
    [skip] counts the code units of a match that are still to be dropped. *)
Fixpoint unescape_chars (skip : nat) (s : jsstring) : jsstring :=
  match s with
  | [] => []
  | c :: s' =>
      match skip with
      | S k => unescape_chars k s'
      | O =>
          if long_escape_here s then unescape_long s ++ unescape_chars 3 s'
          else match short_escape_here s with
               | Some ch => ch :: unescape_chars 1 s'
               | None => c :: unescape_chars 0 s'
               end
      end
  end.

Definition unescape_string (text : option jsstring) : option jsstring :=
  match text with
  | None => None
  | Some [] => Some []
  | Some s => Some (unescape_chars 0 s)
  end.

(** A string that [escape_string] and [unescape_string] take back to itself:
    it holds no backslash, and none of its characters with a letter escape
    (line feed, tab, carriage return, backspace, form feed) is followed by
    two lowercase hexadecimal digits. *)
Definition two_hex_here (s : jsstring) : bool :=
  match s with
  | d1 :: d2 :: _ => is_lower_hex d1 && is_lower_hex d2
  | _ => false
  end.

Definition has_letter_escape (c : N) : bool :=
  ((c =? 10) || (c =? 9) || (c =? 13) || (c =? 8) || (c =? 12))%N.

Fixpoint round_trip_safe (s : jsstring) : bool :=
  match s with
  | [] => true
  | c :: s' =>
      negb (c =? BACKSLASH)%N
      && negb (has_letter_escape c && two_hex_here s')
      && round_trip_safe s'
  end.

(** ** The directory of the extension *)

Definition SLASH : N := 47.

(** [String.prototype.lastIndexOf] of one code unit. *)
Fixpoint lastIndexOf (s : jsstring) (c : N) : Z :=
  match s with
  | [] => -1
  | x :: s' =>
      let r := lastIndexOf s' c in
      if r =? -1 then (if (x =? c)%N then 0 else -1) else r + 1
  end.

(** [String.prototype.substring(start, end)]: both indices are clamped to
    [0, length] and swapped when out of order. *)
Definition substring (s : jsstring) (start end_ : Z) : jsstring :=
  let len := Z.of_nat (length s) in
  let a := Z.min (Z.max start 0) len in
  let b := Z.min (Z.max end_ 0) len in
  take (Z.to_nat (Z.max a b - Z.min a b)) (drop (Z.to_nat (Z.min a b)) s).

(** [get_extension_directory], as a function of the path name of the module
    URL. *)
Definition get_extension_directory (index_path : jsstring) : jsstring :=
  substring index_path 0 (lastIndexOf index_path SLASH).

(** ** Initialisation of the settings *)

(** [initialize_settings], as a function of [extension_settings[MODULE_NAME]]
    ([None] when it is [undefined]): the stored object assigned over a copy
    of the defaults. *)
Definition initialize_settings (stored : option (gmap jsstring setting_value))
  : gmap jsstring setting_value :=
  match stored with
  | Some m => m ∪ default_settings
  | None => default_settings
  end.

Definition with_settings (p : page) (m : gmap jsstring setting_value) : page :=
  Page m (computed_display p) (click_listeners p) (the_menu p)
       (last_tap p) (screen p) (effects p).

(** ** Hiding the toolbars of the messages *)

Definition hide_buttons_class : jsstring := str "force_hidden".

(** [classList] after jQuery's [addClass] and [removeClass] of one class. *)
Definition add_class (c : jsstring) (cls : list jsstring) : list jsstring :=
  if bool_decide (c ∈ cls) then cls else cls ++ [c].

Definition remove_class (c : jsstring) (cls : list jsstring) : list jsstring :=
  filter (fun x => x ≠ c) cls.

(** [toggle_message_buttons] on the class lists of the elements that
    [.mes_buttons, .mes_edit_buttons] selects. *)
Definition toggle_message_buttons (p : page) (toolbars : list (list jsstring))
  : list (list jsstring) :=
  if setting_truthy (get_settings p "hide_message_buttons")
  then add_class hide_buttons_class <$> toolbars
  else remove_class hide_buttons_class <$> toolbars.

(** ** The earlier revision of the tooltip parser

    The second revision of [index.js] in the source has a [parse_tooltip]
    without the guard on an absent tooltip, which only looks for a trailing
    parenthesised group, does not trim and removes every parenthesis. *)

Module Earlier.

(** [tooltip.search(/\(.*\)\s*$/)]. *)
Fixpoint search_from (i : Z) (s : jsstring) : Z :=
  if group_here s then i
  else match s with
       | [] => -1
       | _ :: s' => search_from (i + 1) s'
       end.

Definition search (s : jsstring) : Z := search_from 0 s.

(** [.replace(/[()]/g, '')]. *)
Definition remove_parentheses (s : jsstring) : jsstring :=
  filter (fun c => c ≠ LPAREN ∧ c ≠ RPAREN) s.

(** [None] as a result is the [TypeError] of [tooltip.search] on an absent
    tooltip. *)
Definition parse_tooltip (tooltip : option jsstring) : option label :=
  match tooltip with
  | None => None
  | Some tooltip =>
      let mapped := get_property button_name_map tooltip in
      let parsed :=
        let idx := search tooltip in
        if bool_decide (idx ≠ -1)
        then Label (VString (slice tooltip 0 (Some idx)))
                   (remove_parentheses (slice tooltip idx None))
        else Label (VString tooltip) [] in
      match mapped with
      | Some m => if truthy mapped then Some (Label m tooltip) else Some parsed
      | None => Some parsed
      end
  end.

End Earlier.

(** * Properties *)

(** ** Strings: [slice], [trim], [search] and the marker removal *)

Section Strings.

Implicit Types (s : jsstring) (i j : nat) (k : Z).

Lemma slice_prefix s i :
  (i ≤ length s)%nat → slice s 0 (Some (Z.of_nat i)) = take i s.
Proof.
  intros Hi. unfold slice, relative_index.
  replace (0 <? 0) with false by reflexivity.
  destruct (Z.ltb_spec (Z.of_nat i) 0) as [Hneg|_]; [lia|].
  rewrite Z.min_l by lia. rewrite Z.min_l by lia.
  rewrite Z.sub_0_r, Nat2Z.id. reflexivity.
Qed.

Lemma slice_suffix s i :
  (i ≤ length s)%nat → slice s (Z.of_nat i) None = drop i s.
Proof.
  intros Hi. unfold slice, relative_index.
  destruct (Z.ltb_spec (Z.of_nat i) 0) as [Hneg|_]; [lia|].
  rewrite Z.min_l by lia. rewrite Nat2Z.id.
  apply take_ge. rewrite length_drop. lia.
Qed.

Lemma forallb_Forall_true (f : N → bool) s :
  forallb f s = true ↔ Forall (fun c => f c = true) s.
Proof.
  induction s as [|c s IH]; simpl.
  - split; [constructor | reflexivity].
  - rewrite andb_true_iff, IH, Forall_cons. reflexivity.
Qed.

Lemma dash_here_spec s i : dash_here (drop i s) = true ↔ dash_at s i.
Proof.
  unfold dash_at.
  assert (H0 : s !! i = drop i s !! 0%nat) by (rewrite lookup_drop; f_equal; lia).
  assert (H1 : s !! S i = drop i s !! 1%nat) by (rewrite lookup_drop; f_equal; lia).
  assert (H2 : s !! S (S i) = drop i s !! 2%nat) by (rewrite lookup_drop; f_equal; lia).
  rewrite H0, H1, H2. clear H0 H1 H2.
  destruct (drop i s) as [|a [|b [|c t]]]; simpl.
  - split; [discriminate | intros (a & c & Ha & _); discriminate].
  - split; [discriminate | intros (a' & c & _ & Hb & _); discriminate].
  - split; [discriminate | intros (a' & c & _ & _ & Hc & _); discriminate].
  - rewrite !andb_true_iff, N.eqb_eq. split.
    + intros [[Ha Hb] Hc]. subst b. eauto 10.
    + intros (a' & c' & Ha & Hb & Hc & Hsa & Hsc).
      injection Ha as <-. injection Hb as ->. injection Hc as <-. auto.
Qed.

Lemma close_here_spec s :
  close_here s = true ↔
  ∃ inner ws, s = inner ++ RPAREN :: ws
              ∧ Forall (fun c => regex_dot c = true) inner
              ∧ Forall (fun c => regex_s c = true) ws.
Proof.
  induction s as [|c s IH]; simpl.
  - split; [discriminate|]. intros (inner & ws & H & _).
    destruct inner; discriminate.
  - rewrite orb_true_iff, !andb_true_iff, N.eqb_eq, forallb_Forall_true, IH.
    split.
    + intros [[-> Hws] | [Hc (inner & ws & -> & Hin & Hws)]].
      * exists [], s. auto.
      * exists (c :: inner), ws. auto.
    + intros (inner & ws & H & Hin & Hws). destruct inner as [|c' inner].
      * injection H as -> ->. auto.
      * injection H as -> ->. apply Forall_cons in Hin as [Hc Hin].
        right. split; [exact Hc|]. eauto.
Qed.

Lemma group_here_spec s i : group_here (drop i s) = true ↔ group_at s i.
Proof.
  unfold group_at. destruct (drop i s) as [|c t]; simpl.
  - split; [discriminate | intros (? & ? & H & _); discriminate].
  - rewrite andb_true_iff, N.eqb_eq, close_here_spec. split.
    + intros [-> (inner & ws & -> & H)]. eauto.
    + intros (inner & ws & H & Hin & Hws). injection H as -> ->.
      split; [reflexivity | eauto].
Qed.

Lemma delimiter_here_spec s i :
  delimiter_here (drop i s) = true ↔ delimiter_at s i.
Proof.
  unfold delimiter_here, delimiter_at.
  rewrite orb_true_iff, dash_here_spec, group_here_spec. reflexivity.
Qed.

Lemma delimiter_here_nil : delimiter_here [] = false.
Proof. reflexivity. Qed.

Lemma delimiter_at_lt s i : delimiter_at s i → (i < length s)%nat.
Proof.
  intros H. apply delimiter_here_spec in H.
  destruct (decide (i < length s)%nat) as [|Hge]; [assumption|].
  rewrite drop_ge in H by lia. discriminate.
Qed.

Lemma search_from_first k s i :
  delimiter_here (drop i s) = true →
  (∀ j, (j < i)%nat → delimiter_here (drop j s) = false) →
  search_from k s = k + Z.of_nat i.
Proof.
  revert k i. induction s as [|c s IH]; intros k i Hi Hlt.
  - rewrite drop_nil in Hi. discriminate.
  - destruct i as [|i].
    + simpl in Hi. simpl. rewrite Hi. lia.
    + pose proof (Hlt 0%nat ltac:(lia)) as H0. simpl in H0.
      cbn [search_from]. rewrite H0.
      rewrite (IH (k + 1) i); [lia | exact Hi |].
      intros j Hj. apply (Hlt (S j)). lia.
Qed.

Lemma search_from_none k s :
  (∀ j, delimiter_here (drop j s) = false) → search_from k s = -1.
Proof.
  revert k. induction s as [|c s IH]; intros k Hall.
  - reflexivity.
  - pose proof (Hall 0%nat) as H0. simpl in H0. cbn [search_from]. rewrite H0.
    apply IH. intros j. apply (Hall (S j)).
Qed.

Lemma search_first s i : first_delimiter s i → search s = Z.of_nat i.
Proof.
  intros [Hi Hmin]. unfold search.
  rewrite (search_from_first 0 s i); [lia | by apply delimiter_here_spec |].
  intros j Hj. destruct (delimiter_here (drop j s)) eqn:E; [|reflexivity].
  apply delimiter_here_spec, Hmin in E. lia.
Qed.

Lemma search_none s : (∀ i, ¬ delimiter_at s i) → search s = -1.
Proof.
  intros Hnone. apply search_from_none. intros j.
  destruct (delimiter_here (drop j s)) eqn:E; [|reflexivity].
  apply delimiter_here_spec in E. destruct (Hnone j E).
Qed.

(** [trim] removes white space at both ends and nothing else. *)
Lemma trimStart_split s :
  ∃ l, s = l ++ trimStart s ∧ Forall (fun c => regex_s c = true) l.
Proof.
  induction s as [|c s (l & IH & Hl)]; simpl.
  - exists []. auto.
  - destruct (regex_s c) eqn:E.
    + exists (c :: l). split; [simpl; congruence | auto].
    + exists []. auto.
Qed.

Lemma trimEnd_split s :
  ∃ r, s = trimEnd s ++ r ∧ Forall (fun c => regex_s c = true) r.
Proof.
  unfold trimEnd. destruct (trimStart_split (reverse s)) as (l & H & Hl).
  exists (reverse l). split.
  - rewrite <- reverse_app, <- H, reverse_involutive. reflexivity.
  - by apply Forall_reverse.
Qed.

Lemma trim_split s :
  ∃ l r, s = l ++ trim s ++ r
         ∧ Forall (fun c => regex_s c = true) l
         ∧ Forall (fun c => regex_s c = true) r.
Proof.
  unfold trim. destruct (trimStart_split s) as (l & H & Hl).
  destruct (trimEnd_split (trimStart s)) as (r & H' & Hr).
  exists l, r. split; [|auto]. rewrite <- H'. exact H.
Qed.

(** The marker removal only deletes code units, and only markers. *)
Lemma replace_markers_sublist n b s : replace_markers n b s `sublist_of` s.
Proof.
  revert n b. induction s as [|c s IH]; intros n b; cbn [replace_markers].
  - constructor.
  - destruct n as [|n]; [|apply sublist_cons, IH].
    destruct (dash_here (c :: s)); [apply sublist_cons, IH|].
    destruct (b && (c =? LPAREN)%N); [apply sublist_cons, IH|].
    destruct ((c =? RPAREN)%N && bool_decide (s = [])); [apply sublist_cons, IH|].
    apply sublist_skip, IH.
Qed.

Lemma dash_here_markers a s :
  dash_here (a :: s) = true →
  is_marker a = true ∧ Forall (fun c => is_marker c = true) (take 2 s).
Proof.
  destruct s as [|b [|c t]]; simpl; try discriminate.
  rewrite !andb_true_iff, N.eqb_eq. intros [[Ha ->] Hc].
  split; [unfold is_marker; rewrite Ha; reflexivity|].
  cbn [take]. repeat constructor.
  unfold is_marker. rewrite Hc. reflexivity.
Qed.

Lemma replace_markers_kept n b s :
  Forall (fun c => is_marker c = true) (take n s) →
  filter kept (replace_markers n b s) = filter kept s.
Proof.
  revert n b. induction s as [|c s IH]; intros n b Hn; cbn [replace_markers];
    [reflexivity|].
  destruct n as [|n].
  - destruct (dash_here (c :: s)) eqn:Ed.
    { apply dash_here_markers in Ed as [Hc Hs].
      rewrite (filter_cons_False kept) by (unfold kept; congruence).
      by apply IH. }
    destruct (b && (c =? LPAREN)%N) eqn:El.
    { apply andb_true_iff in El as [_ El]. apply N.eqb_eq in El as ->.
      rewrite (filter_cons_False kept) by (unfold kept; discriminate).
      apply IH. simpl. constructor. }
    destruct ((c =? RPAREN)%N && bool_decide (s = [])) eqn:Er.
    { apply andb_true_iff in Er as [Er _]. apply N.eqb_eq in Er as ->.
      rewrite (filter_cons_False kept) by (unfold kept; discriminate).
      apply IH. simpl. constructor. }
    rewrite !filter_cons. rewrite IH by (simpl; constructor). reflexivity.
  - simpl in Hn. apply Forall_cons in Hn as [Hc Hn].
    rewrite (filter_cons_False kept) by (unfold kept; congruence).
    by apply IH.
Qed.

Lemma strip_markers_sublist s : strip_markers s `sublist_of` s.
Proof. apply replace_markers_sublist. Qed.

Lemma strip_markers_kept s : filter kept (strip_markers s) = filter kept s.
Proof. apply replace_markers_kept. simpl. constructor. Qed.

End Strings.

(** ** The tooltip parser *)

Section Tooltip.

Implicit Types (s : jsstring) (i j : nat).

Lemma search_from_cases k s :
  (search_from k s = -1 ∧ ∀ j, delimiter_here (drop j s) = false)
  ∨ ∃ i, search_from k s = k + Z.of_nat i
         ∧ delimiter_here (drop i s) = true
         ∧ ∀ j, (j < i)%nat → delimiter_here (drop j s) = false.
Proof.
  revert k. induction s as [|c s IH]; intros k.
  - left. split; [reflexivity|]. intros j. by rewrite drop_nil.
  - cbn [search_from]. destruct (delimiter_here (c :: s)) eqn:E.
    + right. exists 0%nat. split; [lia|]. split; [exact E|]. lia.
    + destruct (IH (k + 1)) as [[Hs Hall] | (i & Hs & Hi & Hlt)].
      * left. split; [exact Hs|]. intros [|j]; [exact E | apply Hall].
      * right. exists (S i). split; [lia|]. split; [exact Hi|].
        intros [|j] Hj; [exact E | apply Hlt; lia].
Qed.

(** Where some delimiter begins, a leftmost one does. *)
Lemma first_delimiter_exists s i :
  delimiter_at s i → ∃ idx, first_delimiter s idx ∧ (idx ≤ i)%nat.
Proof.
  intros Hi. destruct (search_from_cases 0 s) as [[_ Hall] | (idx & _ & Hidx & Hlt)].
  - apply delimiter_here_spec in Hi. rewrite Hall in Hi. discriminate.
  - assert (Hfirst : ∀ j, delimiter_at s j → (idx ≤ j)%nat).
    { intros j Hj. destruct (decide (idx ≤ j)%nat) as [|Hn]; [assumption|].
      apply delimiter_here_spec in Hj. rewrite Hlt in Hj by lia. discriminate. }
    exists idx. split; [|by apply Hfirst].
    split; [by apply delimiter_here_spec | exact Hfirst].
Qed.

(** A string in which a delimiter begins holds white space or an opening
    parenthesis, which no member of [Object.prototype] has in its name. *)
Lemma delimiter_at_elem s i :
  delimiter_at s i → ∃ c, c ∈ s ∧ (regex_s c = true ∨ c = LPAREN).
Proof.
  intros [(a & c & Ha & _ & _ & Hsa & _) | (inner & ws & Hd & _)].
  - exists a. split; [by eapply list_elem_of_lookup_2 | by left].
  - exists LPAREN. split; [|by right].
    apply (list_elem_of_lookup_2 _ i).
    replace i with (i + 0)%nat by lia. rewrite <- lookup_drop, Hd. reflexivity.
Qed.

Lemma Object_prototype_names :
  Forall (Forall (fun c => regex_s c = false ∧ c ≠ LPAREN)) Object_prototype.
Proof. apply (bool_decide_unpack _). vm_compute. exact I. Qed.

Lemma delimiter_not_inherited s i : delimiter_at s i → s ∉ Object_prototype.
Proof.
  intros Hd Hin. destruct (delimiter_at_elem s i Hd) as (c & Hc & Hor).
  pose proof Object_prototype_names as Hall.
  rewrite Forall_forall in Hall. specialize (Hall s Hin).
  rewrite Forall_forall in Hall. destruct (Hall c Hc) as [Hs Hl].
  destruct Hor as [Hor | Hor]; congruence.
Qed.

Lemma get_property_delimited s i :
  button_name_map !! s = None → delimiter_at s i →
  get_property button_name_map s = None.
Proof.
  intros Hown Hd. unfold get_property. rewrite Hown.
  rewrite bool_decide_eq_false_2; [reflexivity|]. by eapply delimiter_not_inherited.
Qed.

Lemma parse_tooltip_unmapped s :
  s ≠ [] → get_property button_name_map s = None →
  parse_tooltip (Some s)
  = if bool_decide (search s ≠ -1)
    then Label (VString (trim (slice s 0 (Some (search s)))))
               (strip_markers (slice s (search s) None))
    else Label (VString s) [].
Proof.
  intros Hne Hget. destruct s as [|c s]; [congruence|].
  unfold parse_tooltip. rewrite Hget. reflexivity.
Qed.

Lemma parse_tooltip_absent : parse_tooltip None = Label (VString []) [].
Proof. reflexivity. Qed.

Lemma parse_tooltip_empty : parse_tooltip (Some []) = Label (VString []) [].
Proof. reflexivity. Qed.

(** Without a property of that name and without a delimiter, the tooltip is
    the label. *)
Lemma parse_tooltip_plain s :
  get_property button_name_map s = None → (∀ i, ¬ delimiter_at s i) →
  parse_tooltip (Some s) = Label (VString s) [].
Proof.
  intros Hget Hnone. destruct (decide (s = [])) as [->|Hne]; [reflexivity|].
  rewrite parse_tooltip_unmapped by assumption.
  rewrite (search_none s Hnone). reflexivity.
Qed.

(** A tooltip that names a member of [Object.prototype] gets that member as
    its text. *)
Lemma parse_tooltip_inherited s :
  s ∈ Object_prototype →
  parse_tooltip (Some s) = Label (VInherited s) s.
Proof.
  intros Hin. unfold Object_prototype in Hin.
  apply list_elem_of_fmap in Hin as (name & -> & Hname).
  repeat (apply elem_of_cons in Hname as [-> | Hname]; [vm_compute; reflexivity|]).
  by apply elem_of_nil in Hname.
Qed.

Lemma splits_at_first s i :
  button_name_map !! s = None → first_delimiter s i → splits_at s i.
Proof.
  intros Hown Hfirst. pose proof Hfirst as [Hd _].
  pose proof (delimiter_at_lt s i Hd) as Hlt.
  unfold splits_at. rewrite parse_tooltip_unmapped.
  - rewrite (search_first s i Hfirst).
    rewrite bool_decide_eq_true_2 by lia.
    rewrite slice_prefix, slice_suffix by lia. reflexivity.
  - intros ->. simpl in Hlt. lia.
  - by eapply get_property_delimited.
Qed.



Lemma trimStart_head s c : head (trimStart s) = Some c → regex_s c = false.
Proof.
  induction s as [|x s IH]; cbn [trimStart]; [discriminate|].
  destruct (regex_s x) eqn:Hx; [exact IH|]. cbn. congruence.
Qed.

Lemma trimEnd_last s c : last (trimEnd s) = Some c → regex_s c = false.
Proof.
  unfold trimEnd. rewrite last_reverse. apply trimStart_head.
Qed.

Lemma trimEnd_head s c :
  head (trimEnd s) = Some c → head s = Some c.
Proof.
  destruct (trimEnd_split s) as (r & Hs & _). intros H.
  rewrite Hs. destruct (trimEnd s); [discriminate | exact H].
Qed.

(** [trim] leaves no white space at either end. *)
Lemma trim_ends s c :
  (head (trim s) = Some c → regex_s c = false)
  ∧ (last (trim s) = Some c → regex_s c = false).
Proof.
  unfold trim. split.
  - intros H. apply trimEnd_head in H. by apply trimStart_head in H.
  - apply trimEnd_last.
Qed.











End Tooltip.

Section TooltipClaims.

Implicit Types (s tooltip : jsstring) (i j : nat).

(** C6.  For every tooltip that is a key of the name-override table,
    [parse_tooltip] returns the mapped short label as text and the tooltip
    itself, unchanged, as title. *)
Theorem parse_tooltip_override tooltip short :
  button_name_map !! tooltip = Some short →
  parse_tooltip (Some tooltip) = Label (VString short) tooltip.
Proof.
  unfold button_name_map. intros H.
  apply lookup_singleton_Some in H as [<- <-].
  vm_compute. reflexivity.
Qed.

Lemma parse_tooltip_override_witness :
  button_name_map !! str "Exclude message from prompts"
  = Some (str "Exclude from prompts")
  ∧ parse_tooltip (Some (str "Exclude message from prompts"))
    = Label (VString (str "Exclude from prompts"))
            (str "Exclude message from prompts").
Proof.
  split; [vm_compute; reflexivity|].
  apply (parse_tooltip_override (str "Exclude message from prompts")
           (str "Exclude from prompts")).
  vm_compute. reflexivity.
Defined.





(** The title keeps a parenthesis of a trailing group in two cases, about
    which the statement on the split says nothing: when the split is at a
    hyphen delimiter before the group, and when white space follows the
    group. *)
Lemma parse_tooltip_kept_parenthesis :
  parse_tooltip (Some (str "x - (y)")) = Label (VString (str "x")) (str "(y")
  ∧ parse_tooltip (Some (str "Foo (bar) ")) = Label (VString (str "Foo")) (str "bar) ").
Proof. split; vm_compute; reflexivity. Qed.

(** C7, at the failing input.  The tooltip "constructor" is no key of the
    override table and holds no delimiter, yet its text is not the tooltip
    but the member of [Object.prototype] of that name, and its title is not
    empty. *)
Theorem parse_tooltip_constructor :
  button_name_map !! str "constructor" = None
  ∧ search (str "constructor") = -1
  ∧ parse_tooltip (Some (str "constructor"))
    = Label (VInherited (str "constructor")) (str "constructor")
  ∧ parse_tooltip (Some (str "constructor"))
    ≠ Label (VString (str "constructor")) [].
Proof.
  split; [vm_compute; reflexivity|]. split; [vm_compute; reflexivity|].
  split; [vm_compute; reflexivity|]. vm_compute. discriminate.
Qed.





End TooltipClaims.

(** ** The button collector *)

Section Collector.

Implicit Types (p q : page) (m : message) (e d : element) (a : list jsval).

(** A jQuery object is found in no array of DOM nodes. *)
Lemma indexOf_JQuery a sel : indexOf a (JQuery sel) = -1.
Proof.
  unfold indexOf. generalize 0. induction a as [|y a IH]; intros k; simpl.
  - reflexivity.
  - destruct y; simpl; apply IH.
Qed.

(** [splice(-1, 1)] removes the last entry. *)
Lemma splice_minus_one a : splice a (-1) 1 [] = take (length a - 1) a.
Proof.
  unfold splice, relative_index. replace (-1 <? 0) with true by reflexivity.
  destruct a as [|x a]; [reflexivity|].
  set (len := Z.of_nat (length (x :: a))).
  assert (Hlen : len = Z.of_nat (length a) + 1) by (unfold len; simpl; lia).
  rewrite Z.max_l by lia. rewrite Z.max_l by lia. rewrite Z.min_l by lia.
  replace (Z.to_nat (len + -1)) with (length (x :: a) - 1)%nat by (simpl; lia).
  replace (Z.to_nat (len + -1 + 1)) with (length (x :: a)) by (simpl; lia).
  rewrite drop_all. simpl. rewrite app_nil_r. reflexivity.
Qed.

(** [splice(0, 0, x)] puts [x] in front. *)
Lemma splice_front a x : splice a 0 0 [x] = x :: a.
Proof.
  unfold splice, relative_index. replace (0 <? 0) with false by reflexivity.
  rewrite Z.min_l by lia. rewrite Z.max_l by lia. rewrite Z.min_l by lia.
  reflexivity.
Qed.

(** What the collector returns when the toolbar has an edit control: the
    edit control, then the toolbar without its last button, then the first
    delete control. *)
Lemma get_buttons_with_edit p m e es :
  filter (has_class "mes_edit") (selected m) = e :: es →
  snd (get_buttons p m)
  = Node e :: take (length (selected m) - 1) (Node <$> selected m)
    ++ [first_of (delete_controls m)].
Proof.
  intros Hedit. unfold get_buttons. fold (selected m). fold (delete_controls m).
  rewrite Hedit. rewrite bool_decide_eq_true_2 by (simpl; lia).
  cbn [snd]. rewrite indexOf_JQuery, splice_minus_one, splice_front.
  rewrite length_fmap. reflexivity.
Qed.

Lemma get_buttons_without_edit p m :
  filter (has_class "mes_edit") (selected m) = [] →
  snd (get_buttons p m) = Node <$> selected m.
Proof.
  intros Hedit. unfold get_buttons. fold (selected m). rewrite Hedit.
  reflexivity.
Qed.

Lemma get_buttons_page p m :
  fst (get_buttons p m) = on_click (SetEdited (mesid m)) p (delete_controls m).
Proof.
  unfold get_buttons. fold (selected m). fold (delete_controls m).
  destruct (bool_decide _); reflexivity.
Qed.

(** The collected list does not depend on the page: neither on what an
    earlier collection bound nor on the visibility of any button. *)
Lemma get_buttons_any_page p q m : snd (get_buttons p m) = snd (get_buttons q m).
Proof.
  unfold get_buttons. destruct (bool_decide _); reflexivity.
Qed.

Lemma collected_any_page p q m edit : collected p m edit = collected q m edit.
Proof. unfold collected. destruct edit; [reflexivity | apply get_buttons_any_page]. Qed.

(** The collected values are DOM nodes, except for a last [undefined] when
    the message has an edit control and no delete control. *)
Lemma get_buttons_shape p m :
  ∃ es tl, snd (get_buttons p m) = (Node <$> es) ++ tl
           ∧ (tl = [] ∨ tl = [Undefined]).
Proof.
  destruct (filter (has_class "mes_edit") (selected m)) as [|e es] eqn:Hedit.
  - exists (selected m), []. rewrite app_nil_r.
    split; [by apply get_buttons_without_edit | by left].
  - rewrite (get_buttons_with_edit p m e es Hedit).
    destruct (delete_controls m) as [|d ds]; cbn [first_of].
    + exists (e :: take (length (selected m) - 1) (selected m)), [Undefined].
      split; [|by right]. rewrite fmap_cons, fmap_take. reflexivity.
    + exists (e :: take (length (selected m) - 1) (selected m) ++ [d]), [].
      split; [|by left].
      rewrite app_nil_r, fmap_cons, fmap_app, fmap_take. reflexivity.
Qed.

Lemma buttons_of_nodes es tl :
  tl = [] ∨ tl = [Undefined] → buttons_of ((Node <$> es) ++ tl) = es.
Proof.
  intros Htl. induction es as [|e es IH].
  - destruct Htl as [-> | ->]; reflexivity.
  - cbn. unfold buttons_of in IH. by rewrite IH.
Qed.

Lemma on_click_cons l p e targets :
  on_click l p (e :: targets)
  = on_click l (set_listeners p
                  (<[node e := default [] (click_listeners p !! node e) ++ [l]]>
                     (click_listeners p)))
             targets.
Proof. reflexivity. Qed.

(** [on_click] touches the listener table only. *)
Lemma on_click_frame l p targets :
  extension_settings (on_click l p targets) = extension_settings p
  ∧ computed_display (on_click l p targets) = computed_display p
  ∧ the_menu (on_click l p targets) = the_menu p
  ∧ last_tap (on_click l p targets) = last_tap p
  ∧ screen (on_click l p targets) = screen p
  ∧ effects (on_click l p targets) = effects p.
Proof.
  revert p. induction targets as [|e targets IH]; intros p; [by repeat split|].
  rewrite on_click_cons.
  destruct (IH (set_listeners p
    (<[node e := default [] (click_listeners p !! node e) ++ [l]]>
       (click_listeners p)))) as (H1 & H2 & H3 & H4 & H5 & H6).
  rewrite H1, H2, H3, H4, H5, H6. by repeat split.
Qed.

(** One more listener on every target, after the ones it has; the others
    keep theirs. *)
Lemma on_click_listeners l targets p n :
  NoDup (node <$> targets) →
  click_listeners (on_click l p targets) !! n
  = if decide (n ∈ node <$> targets)
    then Some (default [] (click_listeners p !! n) ++ [l])
    else click_listeners p !! n.
Proof.
  revert p. induction targets as [|e targets IH]; intros p Hnd.
  - cbn [on_click foldl]. case_decide as Hin; [by apply elem_of_nil in Hin | reflexivity].
  - rewrite fmap_cons in Hnd. apply NoDup_cons in Hnd as [Hfresh Hnd].
    rewrite on_click_cons, (IH _ Hnd).
    cbn [set_listeners click_listeners]. rewrite fmap_cons.
    destruct (decide (n = node e)) as [->|Hne].
    + rewrite decide_False by assumption.
      rewrite decide_True by (left; reflexivity).
      by rewrite lookup_insert_eq.
    + rewrite lookup_insert_ne by congruence.
      destruct (decide (n ∈ node <$> targets)) as [Hin|Hout].
      * rewrite decide_True by (by right). reflexivity.
      * rewrite decide_False; [reflexivity|].
        intros Hin. apply elem_of_cons in Hin as [?|?]; congruence.
Qed.

Lemma delete_controls_NoDup m :
  NoDup (node <$> mes_edit_buttons m) → NoDup (node <$> delete_controls m).
Proof.
  unfold delete_controls. generalize (mes_edit_buttons m) as l.
  induction l as [|e l IH]; intros Hnd; [constructor|].
  rewrite fmap_cons in Hnd. apply NoDup_cons in Hnd as [Hfresh Hnd].
  rewrite filter_cons. destruct (decide (has_class "mes_edit_delete" e)).
  - rewrite fmap_cons. apply NoDup_cons. split; [|by apply IH].
    intros Hin. apply Hfresh. apply list_elem_of_fmap in Hin as (x & Hx & Hin).
    apply list_elem_of_fmap. exists x. split; [exact Hx|].
    by apply list_elem_of_filter in Hin as [_ Hin].
  - by apply IH.
Qed.

(** One collection adds one listener to a delete control of the message and
    keeps the ones it had. *)
Lemma get_buttons_listeners p m d :
  NoDup (node <$> mes_edit_buttons m) →
  d ∈ mes_edit_buttons m → has_class "mes_edit_delete" d →
  click_listeners (fst (get_buttons p m)) !! node d
  = Some (default [] (click_listeners p !! node d) ++ [SetEdited (mesid m)]).
Proof.
  intros Hnd Hin Hcls. rewrite get_buttons_page.
  rewrite on_click_listeners by (by apply delete_controls_NoDup).
  rewrite decide_True; [reflexivity|].
  apply list_elem_of_fmap. exists d. split; [reflexivity|].
  unfold delete_controls. by apply list_elem_of_filter.
Qed.

Lemma collect_times_S n m p :
  collect_times (S n) m p = fst (get_buttons (collect_times n m p) m).
Proof. reflexivity. Qed.

Lemma collect_times_listeners n p m d :
  NoDup (node <$> mes_edit_buttons m) →
  d ∈ mes_edit_buttons m → has_class "mes_edit_delete" d →
  default [] (click_listeners (collect_times n m p) !! node d)
  = default [] (click_listeners p !! node d) ++ replicate n (SetEdited (mesid m)).
Proof.
  intros Hnd Hin Hcls. induction n as [|n IH].
  - simpl. by rewrite app_nil_r.
  - rewrite collect_times_S, get_buttons_listeners by assumption. cbn [default].
    rewrite IH, <- app_assoc.
    change [SetEdited (mesid m)] with (replicate 1 (SetEdited (mesid m))).
    rewrite <- replicate_add. replace (n + 1)%nat with (S n) by lia. reflexivity.
Qed.

Lemma collect_times_frame n p m :
  effects (collect_times n m p) = effects p
  ∧ extension_settings (collect_times n m p) = extension_settings p
  ∧ the_menu (collect_times n m p) = the_menu p.
Proof.
  induction n as [|n (IH1 & IH2 & IH3)]; [by repeat split|].
  rewrite collect_times_S, get_buttons_page.
  destruct (on_click_frame (SetEdited (mesid m)) (collect_times n m p)
              (delete_controls m)) as (H1 & _ & H3 & _ & _ & H6).
  rewrite H1, H3, H6. by repeat split.
Qed.

End Collector.

(** ** The menu builder *)

Section Builder.

Implicit Types (p q : page) (m : message) (e d : element).

Lemma add_items_app p v es tl its :
  add_items p v ((Node <$> es) ++ tl) its
  = add_items p v tl (its ++ (make_item v <$> filter (fun e => ¬ hidden p e) es)).
Proof.
  revert its. induction es as [|e es IH]; intros its.
  - simpl. by rewrite app_nil_r.
  - rewrite fmap_cons. cbn [app add_items]. rewrite filter_cons.
    destruct (decide (hidden p e)) as [Hh|Hv].
    + rewrite bool_decide_eq_true_2 by assumption.
      rewrite decide_False by tauto. apply IH.
    + rewrite bool_decide_eq_false_2 by assumption.
      rewrite decide_True by assumption.
      rewrite IH, fmap_cons, <- app_assoc. reflexivity.
Qed.

Lemma add_items_display p q v buttons its :
  computed_display p = computed_display q →
  add_items p v buttons its = add_items q v buttons its.
Proof.
  intros Hd. revert its. induction buttons as [|b buttons IH]; intros its.
  - reflexivity.
  - assert (Hh : ∀ e, bool_decide (hidden p e) = bool_decide (hidden q e)).
    { intros e. apply bool_decide_ext. unfold hidden, css_display. by rewrite Hd. }
    destruct b as [|e|[|e sel]]; cbn [add_items]; try reflexivity.
    + rewrite Hh. destruct (bool_decide (hidden q e)); apply IH.
    + rewrite Hh. destruct (bool_decide (hidden q e)); [apply IH | reflexivity].
Qed.

Lemma menu_mode_is_settings p q mode :
  extension_settings p = extension_settings q →
  menu_mode_is p mode = menu_mode_is q mode.
Proof. intros H. unfold menu_mode_is, get_settings. by rewrite H. Qed.

(** The setting has one value. *)
Lemma menu_mode_is_exclusive p a b :
  menu_mode_is p a = true → menu_mode_is p b = true → str a = str b.
Proof.
  unfold menu_mode_is. intros Ha Hb.
  apply bool_decide_eq_true_1 in Ha. apply bool_decide_eq_true_1 in Hb.
  congruence.
Qed.

Lemma enabled_not_disabled p :
  menu_mode_is p "vertical" = true ∨ menu_mode_is p "horizontal" = true →
  menu_mode_is p "disabled" = false.
Proof.
  intros H. destruct (menu_mode_is p "disabled") eqn:Hd; [|reflexivity].
  destruct H as [H|H]; pose proof (menu_mode_is_exclusive _ _ _ H Hd) as Heq;
    vm_compute in Heq; discriminate.
Qed.

(** Every item replays on the button it was made from. *)
Lemma source_make_item v (es : list element) :
  source <$> (make_item v <$> es) = es.
Proof. induction es as [|e es IH]; [reflexivity|]. cbn. by rewrite IH. Qed.

(** What a build that is not disabled leaves in the menu: the items of the
    visible collected buttons; visibility and position of the menu are not
    touched; the build ends with an exception exactly when the collected list
    holds [undefined]. *)
Lemma update_menu_enabled p message_div edit :
  menu_mode_is p "disabled" = false →
  ∃ mn, the_menu (fst (update_menu p message_div edit)) = Some mn
        ∧ items mn
          = make_item (menu_mode_is p "vertical")
              <$> filter (fun e => ¬ hidden p e)
                         (buttons_of (collected p message_div edit))
        ∧ display_none mn = from_option display_none true (the_menu p)
        ∧ screen (fst (update_menu p message_div edit)) = screen p
        ∧ (snd (update_menu p message_div edit) = Normal
           ↔ Undefined ∉ collected p message_div edit).
Proof.
  intros Hd. unfold update_menu. rewrite Hd.
  match goal with
  | |- context [set_menu p (Some ?x)] => set (m1 := x)
  end.
  assert (Hm1 : display_none m1 = from_option display_none true (the_menu p)).
  { unfold m1. destruct (menu_mode_is p "horizontal"), (the_menu p); reflexivity. }
  set (p1 := set_menu p (Some m1)).
  assert (Hshape : ∃ es tl, collected p message_div edit = (Node <$> es) ++ tl
                            ∧ (tl = [] ∨ tl = [Undefined])).
  { unfold collected. destruct edit; [|apply get_buttons_shape].
    eexists _, []. rewrite app_nil_r. split; [reflexivity | by left]. }
  destruct Hshape as (es & tl & Hcol & Htl).
  assert (Hrun : ∃ p2, (if edit then (p1, get_edit_buttons message_div)
                        else get_buttons p1 message_div)
                       = (p2, collected p message_div edit)
                       ∧ computed_display p2 = computed_display p
                       ∧ extension_settings p2 = extension_settings p
                       ∧ screen p2 = screen p).
  { unfold collected. destruct edit.
    - exists p1. by repeat split.
    - exists (fst (get_buttons p1 message_div)).
      rewrite (get_buttons_any_page p p1).
      split; [by destruct (get_buttons p1 message_div)|].
      rewrite get_buttons_page.
      destruct (on_click_frame (SetEdited (mesid message_div)) p1
                  (delete_controls message_div)) as (H1 & H2 & _ & _ & H5 & _).
      rewrite H1, H2, H5. by repeat split. }
  destruct Hrun as (p2 & -> & Hdisp & Hset & Hscr).
  rewrite (add_items_display p2 p) by assumption.
  rewrite (menu_mode_is_settings p2 p) by assumption.
  assert (Hundef : Undefined ∉ (Node <$> es : list jsval)).
  { intros Hin. apply list_elem_of_fmap in Hin as (x & Hx & _). discriminate. }
  rewrite Hcol, add_items_app, (buttons_of_nodes es tl Htl). cbn [app].
  destruct Htl as [-> | ->]; cbn [add_items fst snd set_menu the_menu screen];
    eexists; (split; [reflexivity|]); (split; [reflexivity|]);
    (split; [exact Hm1|]); (split; [exact Hscr|]).
  - rewrite app_nil_r. split; [intros _; exact Hundef | reflexivity].
  - split; [discriminate|]. intros Hout. exfalso. apply Hout.
    apply elem_of_app. right. left.
Qed.

(** *** The nodes of an item *)

Lemma run_parser_app st a b :
  run_parser st (a ++ b)
  = match run_parser st a with
    | Some st' => run_parser st' b
    | None => None
    end.
Proof.
  revert st. induction a as [|c a IH]; intros st; [reflexivity|].
  cbn [app run_parser]. destruct (step_parser st c); [apply IH | reflexivity].
Qed.

(** Inside an attribute value only a double quote changes the state. *)
Lemma run_parser_attribute_value st v :
  tokenizer st = AttributeValue → (QUOTE ∉ v) → run_parser st v = Some st.
Proof.
  intros Hst Hv. induction v as [|c v IH]; [reflexivity|].
  apply not_elem_of_cons in Hv as [Hc Hv].
  cbn [run_parser]. unfold step_parser. rewrite Hst.
  replace (c =? QUOTE)%N with false by (symmetry; by apply N.eqb_neq).
  rewrite <- Hst. destruct st. by apply IH.
Qed.

(** Inside an element, text without [<] changes neither the open elements
    nor the top-level nodes. *)
Lemma run_parser_text st t :
  tokenizer st = Data → open_elements st ≠ [] → (LESS_THAN ∉ t) →
  run_parser st t = Some st.
Proof.
  intros Hst Hopen Ht. induction t as [|c t IH]; [reflexivity|].
  apply not_elem_of_cons in Ht as [Hc Ht].
  cbn [run_parser]. unfold step_parser. rewrite Hst.
  replace (c =? LESS_THAN)%N with false by (symmetry; by apply N.eqb_neq).
  replace (insert_character c st) with st; [by apply IH|].
  unfold insert_character. destruct (c =? 0)%N; [reflexivity|].
  destruct (open_elements st); [congruence | reflexivity].
Qed.

Ltac run_markup :=
  rewrite run_parser_app;
  match goal with
  | |- context [run_parser ?st ?a] =>
      let r := eval vm_compute in (run_parser st a) in
      replace (run_parser st a) with r by (vm_compute; reflexivity)
  end;
  cbv beta iota.

(** The markup of a plain item is one [div]. *)
Lemma plain_item_nodes it : plain_item it → item_nodes it = Some [TopElement Div].
Proof.
  unfold plain_item, item_nodes.
  destruct (item_body_of it) as [[txt|name] ttl | tooltip];
    [intros [Httl Htxt] | intros [] | intros Httl]; cbn [item_html]; unfold parseHTML.
  - do 7 run_markup.
    rewrite run_parser_app, run_parser_attribute_value by (reflexivity || assumption).
    do 2 run_markup.
    rewrite run_parser_app, run_parser_text
      by (reflexivity || discriminate || assumption).
    vm_compute. reflexivity.
  - do 6 run_markup.
    rewrite run_parser_app, run_parser_attribute_value by (reflexivity || assumption).
    vm_compute. reflexivity.
Qed.

Lemma menu_nodes_plain its :
  Forall plain_item its →
  menu_nodes its = Some (replicate (length its) (TopElement Div)).
Proof.
  induction 1 as [|it its Hit _ IH]; [reflexivity|].
  cbn [menu_nodes]. rewrite (plain_item_nodes it Hit), IH. reflexivity.
Qed.

End Builder.

Section CollectorClaims.

Implicit Types (p q : page) (m : message) (e d : element).

(** C1, at the failing input.  A toolbar with one visible button whose
    tooltip is [a</div><div>b], built in vertical mode.  The loop makes one
    [$menu_item] for the button, but the tooltip is written into the markup
    as it is: it closes the [div] of the item and opens another one, so the
    selection holds two [div] nodes and the menu gets two children for one
    visible button.  For items whose interpolated strings hold no such
    markup the selection is one [div] ([plain_item_nodes]), and the menu
    holds one for each visible collected button, in order
    ([update_menu_enabled], [menu_nodes_plain]). *)
Theorem update_menu_markup_tooltip :
  menu_mode_is Scenario.fresh_page "vertical" = true
  ∧ filter (fun e => ¬ hidden Scenario.fresh_page e)
           (buttons_of (collected Scenario.fresh_page Scenario.markup_message false))
    = [Scenario.markup_button]
  ∧ source <$> from_option items []
                 (the_menu (fst (update_menu Scenario.fresh_page
                                   Scenario.markup_message false)))
    = [Scenario.markup_button]
  ∧ menu_nodes (from_option items []
                  (the_menu (fst (update_menu Scenario.fresh_page
                                    Scenario.markup_message false))))
    = Some [TopElement Div; TopElement Div].
Proof. repeat split; vm_compute; reflexivity. Qed.

(** C2, at the failing input.  Five buttons with the edit control at index
    2: the collected list holds the edit control twice, at index 0 and at
    index 3, and has lost the last button of the toolbar.  In general the
    collector drops the last button, whichever it is
    ([get_buttons_with_edit]). *)
Theorem get_buttons_five_buttons :
  selected Scenario.five_buttons
  = [Scenario.b0; Scenario.b1; Scenario.edit_button; Scenario.b3; Scenario.b4]
  ∧ snd (get_buttons Scenario.fresh_page Scenario.five_buttons)
    = Node <$> [Scenario.edit_button; Scenario.b0; Scenario.b1;
                Scenario.edit_button; Scenario.b3; Scenario.delete_button]
  ∧ (Node Scenario.b4 ∉ snd (get_buttons Scenario.fresh_page Scenario.five_buttons))
  ∧ ¬ NoDup (snd (get_buttons Scenario.fresh_page Scenario.five_buttons)).
Proof.
  split; [vm_compute; reflexivity|]. split; [vm_compute; reflexivity|].
  split; apply (bool_decide_unpack _); vm_compute; exact I.
Qed.


(** C4, as stated, fails: without an edit control in the toolbar the delete
    control of the message is not collected at all, so it is not last. *)
Lemma delete_proxy_not_collected :
  first_of (delete_controls Scenario.no_edit_button) = Node Scenario.delete_button
  ∧ last (snd (get_buttons Scenario.fresh_page Scenario.no_edit_button))
    ≠ Some (Node Scenario.delete_button)
  ∧ Node Scenario.delete_button
    ∉ snd (get_buttons Scenario.fresh_page Scenario.no_edit_button).
Proof.
  split; [vm_compute; reflexivity|]. split.
  - vm_compute. discriminate.
  - apply (bool_decide_unpack _). vm_compute. exact I.
Qed.

Lemma run_listeners_effects p ls :
  effects (foldl run_listener p ls) = effects p ++ (effect_of <$> ls).
Proof.
  revert p. induction ls as [|l ls IH]; intros p.
  - simpl. by rewrite app_nil_r.
  - cbn [foldl]. rewrite IH. destruct l. cbn. by rewrite <- app_assoc.
Qed.

Lemma run_listeners_frame p ls :
  extension_settings (foldl run_listener p ls) = extension_settings p
  ∧ the_menu (foldl run_listener p ls) = the_menu p
  ∧ click_listeners (foldl run_listener p ls) = click_listeners p.
Proof.
  revert p. induction ls as [|l ls IH]; intros p; [by repeat split|].
  cbn [foldl]. destruct (IH (run_listener p l)) as (H1 & H2 & H3).
  rewrite H1, H2, H3. by destruct l.
Qed.

Lemma on_document_click_frame p :
  effects (on_document_click p) = effects p
  ∧ extension_settings (on_document_click p) = extension_settings p
  ∧ click_listeners (on_document_click p) = click_listeners p.
Proof.
  unfold on_document_click. destruct (menu_mode_is p "disabled"); [by repeat split|].
  destruct (the_menu p) as [mn|]; [|by repeat split].
  destruct (display_none mn); by repeat split.
Qed.

Lemma trigger_click_effects p e :
  effects (trigger p click e)
  = effects p ++ (effect_of <$> default [] (click_listeners p !! node e))
    ++ [HostDispatch click (node e)].
Proof.
  unfold trigger. destruct (on_document_click_frame
    (emit (foldl run_listener p (default [] (click_listeners p !! node e)))
          (HostDispatch click (node e)))) as (-> & _).
  cbn [emit effects]. rewrite run_listeners_effects, <- app_assoc. reflexivity.
Qed.

Lemma trigger_click_listeners p e :
  click_listeners (trigger p click e) = click_listeners p.
Proof.
  unfold trigger. destruct (on_document_click_frame
    (emit (foldl run_listener p (default [] (click_listeners p !! node e)))
          (HostDispatch click (node e)))) as (_ & _ & ->).
  cbn [emit click_listeners].
  by destruct (run_listeners_frame p (default [] (click_listeners p !! node e)))
    as (_ & _ & ->).
Qed.

(** A click on a menu item: the listeners of the source button run in the
    order of their registration, then the host sees the click and the
    pointerup. *)
Lemma activate_effects p it :
  effects (activate p it)
  = effects p
    ++ (effect_of <$> default [] (click_listeners p !! node (source it)))
    ++ [HostDispatch click (node (source it));
        HostDispatch pointerup (node (source it))].
Proof.
  unfold activate.
  destruct (on_document_click_frame
              (trigger (trigger p click (source it)) pointerup (source it)))
    as (-> & _).
  cbn [trigger emit effects]. fold (trigger p click (source it)).
  rewrite trigger_click_effects, <- !app_assoc. reflexivity.
Qed.

Lemma first_of_Node (sel : list element) d :
  first_of sel = Node d → ∃ ds, sel = d :: ds.
Proof. destruct sel as [|x ds]; [discriminate|]. intros [= ->]. eauto. Qed.

(** C4, as amended.  When the toolbar of the message has an edit control
    and the message has a delete control, the collector puts the delete
    control last, and a click on it after the collection runs
    [setEditedMessageId(Number(mesid))] as the last thing before the host
    handles the click, whatever listeners the control had before. *)
Theorem delete_proxy_last_and_sets_edit_context p m d :
  filter (has_class "mes_edit") (selected m) ≠ [] →
  first_of (delete_controls m) = Node d →
  NoDup (node <$> mes_edit_buttons m) →
  last (snd (get_buttons p m)) = Some (Node d)
  ∧ effects (trigger (fst (get_buttons p m)) click d)
    = effects p
      ++ (effect_of <$> default [] (click_listeners p !! node d))
      ++ [setEditedMessageId (Number (mesid m)); HostDispatch click (node d)].
Proof.
  intros Hedit Hdel Hnd.
  destruct (filter (has_class "mes_edit") (selected m)) as [|e es] eqn:He;
    [congruence|].
  pose proof (first_of_Node _ _ Hdel) as [ds Hds].
  assert (Hin : d ∈ mes_edit_buttons m ∧ has_class "mes_edit_delete" d).
  { assert (Hd : d ∈ delete_controls m) by (rewrite Hds; left).
    unfold delete_controls in Hd. apply list_elem_of_filter in Hd. tauto. }
  destruct Hin as [Hin Hcls]. split.
  - rewrite (get_buttons_with_edit p m e es He), Hdel.
    rewrite app_comm_cons. apply last_snoc.
  - rewrite trigger_click_effects.
    rewrite (get_buttons_listeners p m d Hnd Hin Hcls). cbn [default].
    rewrite get_buttons_page.
    destruct (on_click_frame (SetEdited (mesid m)) p (delete_controls m))
      as (_ & _ & _ & _ & _ & ->).
    match goal with |- context [id ?x] => change (id x) with x end.
    rewrite fmap_app, <- !app_assoc. reflexivity.
Qed.

Lemma delete_proxy_last_and_sets_edit_context_witness :
  last (snd (get_buttons Scenario.fresh_page Scenario.five_buttons))
  = Some (Node Scenario.delete_button)
  ∧ effects (trigger (fst (get_buttons Scenario.fresh_page Scenario.five_buttons))
                     click Scenario.delete_button)
    = [setEditedMessageId (Number (Some (str "7"))); HostDispatch click 9].
Proof.
  apply (delete_proxy_last_and_sets_edit_context
           Scenario.fresh_page Scenario.five_buttons Scenario.delete_button).
  - vm_compute. discriminate.
  - vm_compute. reflexivity.
  - apply (bool_decide_unpack _). vm_compute. exact I.
Defined.

(** C10.  Each collection on a message adds one click listener that sets
    the edited-message identifier to every delete control of the message and
    keeps the listeners that were there; so after [n] collections on a
    message whose delete control had no listener, one click on the menu item
    of the delete control calls [setEditedMessageId] [n] times before the
    host sees the click. *)
Theorem collections_accumulate_listeners n p m d :
  NoDup (node <$> mes_edit_buttons m) →
  d ∈ mes_edit_buttons m → has_class "mes_edit_delete" d →
  click_listeners (fst (get_buttons p m)) !! node d
  = Some (default [] (click_listeners p !! node d) ++ [SetEdited (mesid m)])
  ∧ default [] (click_listeners (collect_times n m p) !! node d)
    = default [] (click_listeners p !! node d) ++ replicate n (SetEdited (mesid m))
  ∧ ∀ it, source it = d → click_listeners p !! node d = None →
      effects (activate (collect_times n m p) it)
      = effects p
        ++ replicate n (setEditedMessageId (Number (mesid m)))
        ++ [HostDispatch click (node d); HostDispatch pointerup (node d)].
Proof.
  intros Hnd Hin Hcls. split; [by apply get_buttons_listeners|].
  split; [by apply collect_times_listeners|].
  intros it Hit Hnone. rewrite activate_effects, Hit.
  rewrite (collect_times_listeners n p m d Hnd Hin Hcls), Hnone.
  destruct (collect_times_frame n p m) as (-> & _).
  cbn [default app]. rewrite fmap_replicate. reflexivity.
Qed.

Lemma collections_accumulate_listeners_witness :
  effects (activate (collect_times 3 Scenario.five_buttons Scenario.fresh_page)
                    (make_item true Scenario.delete_button))
  = [setEditedMessageId (Number (Some (str "7")));
     setEditedMessageId (Number (Some (str "7")));
     setEditedMessageId (Number (Some (str "7")));
     HostDispatch click 9; HostDispatch pointerup 9].
Proof.
  apply (proj2 (proj2 (collections_accumulate_listeners
                         3 Scenario.fresh_page Scenario.five_buttons
                         Scenario.delete_button
                         ltac:(apply (bool_decide_unpack _); vm_compute; exact I)
                         ltac:(apply (bool_decide_unpack _); vm_compute; exact I)
                         ltac:(apply (bool_decide_unpack _); vm_compute; exact I)))
               (make_item true Scenario.delete_button)).
  - reflexivity.
  - vm_compute. reflexivity.
Defined.

End CollectorClaims.

(** ** The positioner *)

Section Positioner.

Variable layout : menu -> Z * Z.

Implicit Types (p : page) (pos size limit : Z).

(** Where the box would pass the far edge it is moved back by exactly its
    size, so that its far edge is at the pointer. *)
Lemma flip_shift pos size limit :
  pos + size > limit → flip (Some pos) size limit = Some (pos - size).
Proof.
  intros H. unfold flip. destruct (Z.gtb_spec (pos + size) limit); [reflexivity | lia].
Qed.

Lemma flip_stay pos size limit :
  pos + size <= limit → flip (Some pos) size limit = Some pos.
Proof.
  intros H. unfold flip. destruct (Z.gtb_spec (pos + size) limit); [lia | reflexivity].
Qed.

(** The box stays inside when it fits on one side of the pointer. *)
Lemma flip_inside pos size limit :
  0 <= pos <= limit → pos + size <= limit ∨ size <= pos →
  inside (flip (Some pos) size limit) size limit.
Proof.
  intros Hpos Hfit. unfold inside, flip.
  destruct (Z.gtb_spec (pos + size) limit); eexists; (split; [reflexivity|]); lia.
Qed.

(** The two axes are computed independently of each other. *)
Lemma set_menu_position_axes p mn x y :
  the_menu p = Some mn →
  ∃ mn', the_menu (fst (set_menu_position layout p x y)) = Some mn'
         ∧ left mn' = css_px (flip x (fst (getBoundingClientRect layout mn))
                                   (fst (screen p))) (left mn)
         ∧ top mn' = css_px (flip y (snd (getBoundingClientRect layout mn))
                                  (snd (screen p))) (top mn)
         ∧ items mn' = items mn ∧ display_none mn' = display_none mn.
Proof.
  intros Hm. unfold set_menu_position. rewrite Hm. cbn.
  eexists. split; [reflexivity|]. by repeat split.
Qed.

(** A menu that opens from hidden is measured while it still has
    [display: none]: its rectangle is all zero, so with the pointer on the
    screen no axis is corrected and the menu is anchored at the pointer,
    whatever size it is then rendered with. *)
Lemma handle_interaction_from_hidden p e x y :
  menu_mode_is p "disabled" = false →
  from_option display_none true (the_menu p) = true →
  Undefined ∉ collected p (target_message e)
                (bool_decide (0 < length (edit_textarea (target_message e)))%nat) →
  pageX e = Some x → pageY e = Some y →
  x <= fst (screen p) → y <= snd (screen p) →
  ∃ mn, the_menu (fst (handle_interaction layout p e)) = Some mn
        ∧ display_none mn = false ∧ left mn = Some x ∧ top mn = Some y.
Proof.
  intros Hd Hhid Hdef Hx Hy Hxs Hys. unfold handle_interaction. rewrite Hd.
  set (edit := bool_decide _) in *. set (q := emit p preventDefault).
  destruct (update_menu_enabled q (target_message e) edit Hd)
    as (mn & Hmenu & _ & Hnone & Hscr & Hc).
  rewrite (collected_any_page q p) in Hc. apply Hc in Hdef.
  change (the_menu q) with (the_menu p) in Hnone. rewrite Hhid in Hnone.
  change (screen q) with (screen p) in Hscr.
  destruct (update_menu q (target_message e) edit) as [p1 c].
  cbn [fst snd] in Hmenu, Hscr, Hdef. subst c.
  unfold set_menu_position, getBoundingClientRect. rewrite Hmenu, Hnone, Hx, Hy, Hscr.
  cbn [fst snd flip css_px show set_menu the_menu set_display_none].
  rewrite !Z.add_0_r.
  destruct (Z.gtb_spec x (fst (screen p))); [lia|].
  destruct (Z.gtb_spec y (snd (screen p))); [lia|].
  eexists. split; [reflexivity|]. by repeat split.
Qed.

End Positioner.

(** C5, at the failing input.  The menu is shown and measures 220 by 100 on
    a screen of 400 by 800, so it is smaller than the screen; the pointer is
    at (200, 100), inside the screen.  Anchored at the pointer the menu would
    pass the right edge, so it is moved left by its width, to -20: its left
    part is off the screen.  Two right-clicks at that point reach this
    position through the gesture handler. *)
Theorem set_menu_position_off_screen :
  ∃ mn mn',
    the_menu Scenario.open_page = Some mn
    ∧ getBoundingClientRect Scenario.fixed_layout mn = (220, 100)
    ∧ screen Scenario.open_page = (400, 800)
    ∧ the_menu (fst (set_menu_position Scenario.fixed_layout Scenario.open_page
                                       (Some 200) (Some 100))) = Some mn'
    ∧ left mn' = Some (-20)
    ∧ top mn' = Some 100
    ∧ ¬ inside (left mn') 220 400
    ∧ left <$> the_menu (run Scenario.fixed_layout Scenario.fresh_page
                             [Scenario.right_click; Scenario.right_click])
      = Some (Some (-20)).
Proof.
  destruct (the_menu Scenario.open_page) as [mn|] eqn:Hm;
    [|vm_compute in Hm; discriminate].
  assert (Hvis : display_none mn = false).
  { assert (H : display_none <$> the_menu Scenario.open_page = Some false)
      by (vm_compute; reflexivity).
    rewrite Hm in H. by injection H. }
  destruct (set_menu_position_axes Scenario.fixed_layout Scenario.open_page
              mn (Some 200) (Some 100) Hm) as (mn' & Hm' & Hl & Ht & _).
  assert (Hrect : getBoundingClientRect Scenario.fixed_layout mn = (220, 100))
    by (unfold getBoundingClientRect; rewrite Hvis; reflexivity).
  assert (Hscreen : screen Scenario.open_page = (400, 800))
    by (vm_compute; reflexivity).
  exists mn, mn'. rewrite Hrect, Hscreen in Hl, Ht. cbn in Hl, Ht.
  repeat (split; [assumption || reflexivity|]).
  split; [|vm_compute; reflexivity].
  rewrite Hl. intros (v & Hv & Hge & _). injection Hv as <-. lia.
Qed.

(** ** The interaction controller *)

Section Controller.

Variable layout : menu -> Z * Z.

Implicit Types (p : page) (ev : ui_event) (evs : list ui_event).

Lemma handle_interaction_disabled p e :
  menu_mode_is p "disabled" = true → handle_interaction layout p e = (p, Normal).
Proof. intros H. unfold handle_interaction. by rewrite H. Qed.

Lemma on_document_click_disabled p :
  menu_mode_is p "disabled" = true → on_document_click p = p.
Proof. intros H. unfold on_document_click. by rewrite H. Qed.

Lemma trigger_frame p t e :
  extension_settings (trigger p t e) = extension_settings p
  ∧ (menu_mode_is p "disabled" = true → the_menu (trigger p t e) = the_menu p).
Proof.
  destruct t; cbn [trigger]; [|by split].
  set (q := emit _ _).
  assert (Hq : extension_settings q = extension_settings p ∧ the_menu q = the_menu p).
  { unfold q. cbn [emit extension_settings the_menu].
    destruct (run_listeners_frame p (default [] (click_listeners p !! node e)))
      as (-> & -> & _). by split. }
  destruct Hq as [Hs Hm]. destruct (on_document_click_frame q) as (_ & -> & _).
  split; [exact Hs|]. intros Hd.
  rewrite on_document_click_disabled; [exact Hm|].
  by rewrite (menu_mode_is_settings q p).
Qed.

Lemma activate_disabled p it :
  menu_mode_is p "disabled" = true → the_menu (activate p it) = the_menu p.
Proof.
  intros Hd. unfold activate.
  destruct (trigger_frame p click (source it)) as [Hs1 Hm1].
  destruct (trigger_frame (trigger p click (source it)) pointerup (source it))
    as [Hs2 Hm2].
  assert (Hd1 : menu_mode_is (trigger p click (source it)) "disabled" = true)
    by (by rewrite (menu_mode_is_settings _ p)).
  rewrite on_document_click_disabled.
  - rewrite Hm2, Hm1 by assumption. reflexivity.
  - rewrite (menu_mode_is_settings _ (trigger p click (source it))); assumption.
Qed.

(** No listener changes the menu while the mode is "disabled". *)
Lemma step_disabled p ev :
  menu_mode_is p "disabled" = true → the_menu (step layout p ev) = the_menu p.
Proof.
  intros Hd. destruct ev as [e|e t| |i|c]; cbn [step].
  - unfold on_contextmenu. rewrite handle_interaction_disabled by assumption.
    by destruct (negb _).
  - unfold on_touchend. rewrite handle_interaction_disabled by assumption.
    destruct ((t - last_tap p <? 300) && (t - last_tap p >? 0));
      destruct (setting_truthy (get_settings p "double_tap")); reflexivity.
  - by rewrite on_document_click_disabled.
  - destruct (the_menu p) as [mn|] eqn:Hm; [|by rewrite Hm].
    destruct (items mn !! i) as [it|]; [|by rewrite Hm].
    rewrite activate_disabled by assumption. exact Hm.
  - by destruct c.
Qed.

Lemma run_disabled p evs :
  (∀ k, (k < length evs)%nat →
        menu_mode_is (run layout p (take k evs)) "disabled" = true) →
  the_menu (run layout p evs) = the_menu p.
Proof.
  revert p. induction evs as [|ev evs IH]; intros p Hd; [reflexivity|].
  change (run layout p (ev :: evs)) with (run layout (step layout p ev) evs).
  rewrite IH.
  - apply step_disabled. apply (Hd 0%nat). simpl. lia.
  - intros k Hk. apply (Hd (S k)). simpl. lia.
Qed.

(** C9, as amended.  When the mode is "disabled", the gesture handler
    returns at once, with the page as it was; no listener of the extension
    changes the menu; and over any sequence of events before each of which
    the mode is "disabled", the menu stays as it was, so a menu that is
    hidden or not yet built is not shown. *)
Theorem disabled_mode_keeps_menu p evs :
  menu_mode_is p "disabled" = true →
  (∀ k, (k < length evs)%nat →
        menu_mode_is (run layout p (take k evs)) "disabled" = true) →
  (∀ e, handle_interaction layout p e = (p, Normal))
  ∧ (∀ ev, the_menu (step layout p ev) = the_menu p)
  ∧ the_menu (run layout p evs) = the_menu p
  ∧ menu_visible (run layout p evs) = menu_visible p.
Proof.
  intros Hd Hrun. split; [intros e; by apply handle_interaction_disabled|].
  split; [intros ev; by apply step_disabled|].
  pose proof (run_disabled p evs Hrun) as Hmenu.
  split; [exact Hmenu|]. unfold menu_visible. by rewrite Hmenu.
Qed.

End Controller.

Lemma disabled_mode_keeps_menu_witness :
  the_menu (run Scenario.fixed_layout Scenario.disabled_page Scenario.gestures) = None
  ∧ menu_visible (run Scenario.fixed_layout Scenario.disabled_page Scenario.gestures)
    = false.
Proof.
  assert (Hd : menu_mode_is Scenario.disabled_page "disabled" = true)
    by (vm_compute; reflexivity).
  assert (Hrun : ∀ k, (k < length Scenario.gestures)%nat →
            menu_mode_is (run Scenario.fixed_layout Scenario.disabled_page
                              (take k Scenario.gestures)) "disabled" = true).
  { intros k Hk.
    do 4 (destruct k as [|k]; [vm_compute; reflexivity|]). simpl in Hk. lia. }
  destruct (disabled_mode_keeps_menu Scenario.fixed_layout Scenario.disabled_page
              Scenario.gestures Hd Hrun) as (_ & _ & Hmenu & Hvis).
  split; [exact Hmenu | exact Hvis].
Defined.

(** C9, as stated, fails: after a right-click in the default mode the menu
    is shown; the mode is then set to "disabled" from the settings panel, and
    the page is in disabled mode with the menu visible.  A click on the
    document does not hide it either. *)
Lemma menu_visible_in_disabled_mode :
  menu_mode_is (run Scenario.fixed_layout Scenario.fresh_page Scenario.switch_off)
               "disabled" = true
  ∧ menu_visible (run Scenario.fixed_layout Scenario.fresh_page Scenario.switch_off)
    = true
  ∧ menu_visible (run Scenario.fixed_layout Scenario.fresh_page
                      (Scenario.switch_off ++ [document_click])) = true.
Proof. repeat split; vm_compute; reflexivity. Qed.

(** * Further properties of the source *)

(** ** [escape_string] and [unescape_string] *)

Section Escaping.

Implicit Types (s t : jsstring) (c : N).

Lemma is_control_elem c :
  is_control c = true → c ∈ (N.of_nat <$> seq 0 32) ++ [127%N].
Proof.
  unfold is_control. rewrite orb_true_iff, N.leb_le, N.eqb_eq. intros [Hle | ->].
  - apply elem_of_app. left. apply list_elem_of_fmap. exists (N.to_nat c).
    split; [lia|]. apply elem_of_seq. lia.
  - apply elem_of_app. right. left.
Qed.

(** What the replacement function of [escape_string] returns for a control
    character: a backslash and its letter, or a backslash, [x] and the two
    lowercase hexadecimal digits of its code. *)
Lemma escape_match_cases c :
  is_control c = true →
  (has_letter_escape c = true
   ∧ ∃ l, escape_match c = [BACKSLASH; l] ∧ named_escape l = Some c)
  ∨ (has_letter_escape c = false
     ∧ ∃ d1 d2, escape_match c = [BACKSLASH; 120%N; d1; d2]
                ∧ is_lower_hex d1 = true ∧ is_lower_hex d2 = true
                ∧ (16 * hex_value d1 + hex_value d2)%N = c).
Proof.
  intros Hc. apply is_control_elem in Hc. cbn in Hc.
  repeat (apply elem_of_cons in Hc as [-> | Hc];
          [first [ left; split; [reflexivity|]; eexists; split; reflexivity
                 | right; split; [reflexivity|]; eexists _, _;
                   repeat split; reflexivity ] |]).
  by apply elem_of_nil in Hc.
Qed.

Lemma lower_hex_not_control c : is_lower_hex c = true → is_control c = false.
Proof.
  unfold is_lower_hex, is_control.
  rewrite orb_true_iff, !andb_true_iff, !N.leb_le, orb_false_iff, N.leb_gt, N.eqb_neq.
  lia.
Qed.

Lemma named_escape_letter l c :
  named_escape l = Some c →
  is_control l = false ∧ is_long_head l = true ∧ l ≠ 120%N.
Proof.
  unfold named_escape.
  destruct (N.eqb_spec l 110) as [->|?]; [intros _; by repeat split|].
  destruct (N.eqb_spec l 116) as [->|?]; [intros _; by repeat split|].
  destruct (N.eqb_spec l 114) as [->|?]; [intros _; by repeat split|].
  destruct (N.eqb_spec l 98) as [->|?]; [intros _; by repeat split|].
  destruct (N.eqb_spec l 102) as [->|?]; [intros _; by repeat split|].
  discriminate.
Qed.

Lemma escape_match_no_control c :
  is_control c = true → Forall (fun x => is_control x = false) (escape_match c).
Proof.
  intros Hc.
  destruct (escape_match_cases c Hc)
    as [(_ & l & -> & Hl) | (_ & d1 & d2 & -> & H1 & H2 & _)].
  - apply named_escape_letter in Hl as (Hl & _). by repeat constructor.
  - repeat constructor; by apply lower_hex_not_control.
Qed.

Lemma escape_chars_no_control s :
  Forall (fun c => is_control c = false) (escape_chars s).
Proof.
  induction s as [|c s IH]; [constructor|]. cbn [escape_chars].
  apply Forall_app. split; [|exact IH].
  destruct (is_control c) eqn:Hc.
  - by apply escape_match_no_control.
  - by repeat constructor.
Qed.

Lemma escape_match_head c :
  is_control c = true → ∃ t, escape_match c = BACKSLASH :: t.
Proof.
  intros Hc.
  destruct (escape_match_cases c Hc)
    as [(_ & l & -> & _) | (_ & d1 & d2 & -> & _)]; eauto.
Qed.

Lemma escape_chars_fixed_point s :
  escape_chars s = s ↔ Forall (fun c => is_control c = false) s.
Proof.
  induction s as [|c s IH]; [by split|]. cbn [escape_chars].
  destruct (is_control c) eqn:Hc.
  - split.
    + destruct (escape_match_head c Hc) as [t ->]. intros [= <- _].
      discriminate.
    + intros H. apply Forall_cons in H as [H _]. congruence.
  - cbn [app]. rewrite Forall_cons. split.
    + intros [= H]. split; [exact Hc | by apply IH].
    + intros [_ H]. f_equal. by apply IH.
Qed.

Lemma unescape_plain c t :
  c ≠ BACKSLASH → unescape_chars 0 (c :: t) = c :: unescape_chars 0 t.
Proof.
  intros Hc. cbn [unescape_chars].
  assert (Hb : (c =? BACKSLASH)%N = false) by (by apply N.eqb_neq).
  assert (Hl : long_escape_here (c :: t) = false).
  { destruct t as [|h [|d1 [|d2 t]]]; try reflexivity. cbn. by rewrite Hb. }
  assert (Hs : short_escape_here (c :: t) = None).
  { destruct t as [|h t]; [reflexivity|]. cbn. by rewrite Hb. }
  by rewrite Hl, Hs.
Qed.

Lemma unescape_chars_no_backslash s :
  BACKSLASH ∉ s → unescape_chars 0 s = s.
Proof.
  induction s as [|c s IH]; intros Hs; [reflexivity|].
  apply not_elem_of_cons in Hs as [Hc Hs].
  rewrite unescape_plain by congruence. by rewrite IH.
Qed.

Lemma long_escape_here_cons b h t :
  long_escape_here (b :: h :: t)
  = (b =? BACKSLASH)%N && is_long_head h && two_hex_here t.
Proof.
  destruct t as [|d1 [|d2 t]]; cbn; rewrite ?andb_false_r; try reflexivity.
  by rewrite !andb_assoc.
Qed.

Lemma unescape_letter c l t :
  named_escape l = Some c → two_hex_here t = false →
  unescape_chars 0 (BACKSLASH :: l :: t) = c :: unescape_chars 0 t.
Proof.
  intros Hl Ht. cbn [unescape_chars].
  rewrite long_escape_here_cons, Ht, andb_false_r.
  cbn [short_escape_here]. replace (BACKSLASH =? BACKSLASH)%N with true by reflexivity.
  rewrite Hl. destruct t; reflexivity.
Qed.

Lemma unescape_hex d1 d2 t :
  is_lower_hex d1 = true → is_lower_hex d2 = true →
  unescape_chars 0 (BACKSLASH :: 120%N :: d1 :: d2 :: t)
  = (16 * hex_value d1 + hex_value d2)%N :: unescape_chars 0 t.
Proof.
  intros H1 H2. cbn [unescape_chars].
  rewrite long_escape_here_cons. cbn [two_hex_here]. rewrite H1, H2.
  cbn. destruct t; reflexivity.
Qed.

Lemma control_not_lower_hex c : is_control c = true → is_lower_hex c = false.
Proof.
  intros Hc. destruct (is_lower_hex c) eqn:Hh; [|reflexivity].
  apply lower_hex_not_control in Hh. congruence.
Qed.

(** Escaping does not change whether a text begins with two hexadecimal
    digits. *)
Lemma two_hex_escape s : two_hex_here (escape_chars s) = two_hex_here s.
Proof.
  destruct s as [|a s]; [reflexivity|]. cbn [escape_chars].
  destruct (is_control a) eqn:Ha.
  - destruct (escape_match_cases a Ha)
      as [(_ & l & -> & _) | (_ & d1 & d2 & -> & _)]; cbn [app two_hex_here];
      replace (is_lower_hex BACKSLASH) with false by reflexivity;
      cbn [andb]; destruct s as [|b s]; cbn [two_hex_here];
      by rewrite ?(control_not_lower_hex a Ha).
  - cbn [app]. destruct s as [|b s]; [reflexivity|]. cbn [escape_chars].
    destruct (is_control b) eqn:Hb.
    + destruct (escape_match_head b Hb) as [t ->]. cbn [app two_hex_here].
      replace (is_lower_hex BACKSLASH) with false by reflexivity.
      by rewrite (control_not_lower_hex b Hb), !andb_false_r.
    + reflexivity.
Qed.

Lemma unescape_escape_chars s :
  round_trip_safe s = true → unescape_chars 0 (escape_chars s) = s.
Proof.
  induction s as [|c s IH]; intros Hs; [reflexivity|].
  cbn [round_trip_safe] in Hs.
  apply andb_true_iff in Hs as [Hs Hrest]. apply andb_true_iff in Hs as [Hb Hle].
  apply negb_true_iff, N.eqb_neq in Hb. apply negb_true_iff in Hle.
  specialize (IH Hrest). cbn [escape_chars].
  destruct (is_control c) eqn:Hc.
  - destruct (escape_match_cases c Hc)
      as [(Hn & l & -> & Hl) | (_ & d1 & d2 & -> & H1 & H2 & Hv)]; cbn [app].
    + rewrite Hn in Hle. cbn [andb] in Hle.
      rewrite (unescape_letter c l) by (by rewrite ?two_hex_escape).
      by rewrite IH.
    + rewrite unescape_hex by assumption. by rewrite IH, Hv.
  - cbn [app]. rewrite unescape_plain by assumption. by rewrite IH.
Qed.

Lemma escape_string_Some s : escape_string (Some s) = Some (escape_chars s).
Proof. by destruct s. Qed.

Lemma unescape_string_Some s : unescape_string (Some s) = Some (unescape_chars 0 s).
Proof. by destruct s. Qed.

(** X1.  The text that [escape_string] returns holds no control character
    (no code unit in 0x00-0x1F, nor 0x7F), whatever the text it is given. *)
Theorem escape_string_no_control s :
  ∃ r, escape_string (Some s) = Some r
       ∧ Forall (fun c => is_control c = false) r.
Proof.
  exists (escape_chars s). split; [apply escape_string_Some|].
  apply escape_chars_no_control.
Qed.

(** X2.  What the settings panel shows for a stored text, typed back
    unchanged, is stored as the same text: [unescape_string] undoes
    [escape_string] on every text that holds no backslash and in which no
    line feed, tab, carriage return, backspace or form feed is followed by
    two lowercase hexadecimal digits. *)
Theorem unescape_escape s :
  round_trip_safe s = true →
  ∃ shown, escape_string (Some s) = Some shown
           ∧ unescape_string (Some shown) = Some s.
Proof.
  intros Hs. exists (escape_chars s). split; [apply escape_string_Some|].
  rewrite unescape_string_Some. f_equal. by apply unescape_escape_chars.
Qed.

Lemma unescape_escape_witness :
  ∃ shown, escape_string (Some [97; 10; 98; 1; 127; 9]%N) = Some shown
           ∧ unescape_string (Some shown) = Some [97; 10; 98; 1; 127; 9]%N.
Proof.
  apply (unescape_escape [97; 10; 98; 1; 127; 9]%N). vm_compute. reflexivity.
Defined.

(** X3.  [escape_string] returns a text as it is exactly when the text holds
    no control character. *)
Theorem escape_string_fixed_point s :
  escape_string (Some s) = Some s ↔ Forall (fun c => is_control c = false) s.
Proof.
  rewrite escape_string_Some, <- escape_chars_fixed_point.
  split; [by intros [= ->] | by intros ->].
Qed.

(** X4.  [unescape_string] returns a text without a backslash as it is, so
    a value such as "horizontal" is stored as typed. *)
Theorem unescape_string_no_backslash s :
  BACKSLASH ∉ s → unescape_string (Some s) = Some s.
Proof.
  intros Hs. rewrite unescape_string_Some. f_equal.
  by apply unescape_chars_no_backslash.
Qed.

Lemma unescape_string_no_backslash_witness :
  unescape_string (Some (str "horizontal")) = Some (str "horizontal").
Proof.
  apply (unescape_string_no_backslash (str "horizontal")).
  apply (bool_decide_unpack _). vm_compute. exact I.
Defined.

End Escaping.

(** ** [get_extension_directory] *)

Section Directory.

Implicit Types (s pre post : jsstring) (c : N).

Lemma lastIndexOf_spec s c :
  (lastIndexOf s c = -1 ∧ c ∉ s)
  ∨ ∃ pre post, s = pre ++ c :: post ∧ (c ∉ post)
                ∧ lastIndexOf s c = Z.of_nat (length pre).
Proof.
  induction s as [|x s IH]; [left; split; [reflexivity | apply not_elem_of_nil]|].
  cbn [lastIndexOf].
  destruct IH as [[Hr Hs] | (pre & post & -> & Hpost & Hr)].
  - rewrite Hr. replace (-1 =? -1) with true by reflexivity.
    destruct (N.eqb_spec x c) as [->|Hx].
    + right. exists [], s. by repeat split.
    + left. split; [reflexivity|]. apply not_elem_of_cons. by split.
  - rewrite Hr. destruct (Z.eqb_spec (Z.of_nat (length pre)) (-1)) as [?|_]; [lia|].
    right. exists (x :: pre), post. repeat split; [assumption|].
    cbn [length]. lia.
Qed.

Lemma substring_prefix s (n : nat) :
  (n ≤ length s)%nat → substring s 0 (Z.of_nat n) = take n s.
Proof.
  intros Hn. unfold substring. cbn [Z.max].
  rewrite (Z.min_l 0) by lia. rewrite (Z.max_l (Z.of_nat n)) by lia.
  rewrite (Z.min_l (Z.of_nat n)) by lia.
  rewrite Z.max_r by lia. rewrite Z.min_l by lia.
  rewrite Z.sub_0_r, Nat2Z.id. reflexivity.
Qed.

(** X5.  The directory is the path up to, not including, its last slash:
    the path is the directory, a slash and a file name without a slash.  A
    path without a slash has the empty directory. *)
Theorem get_extension_directory_spec index_path :
  (SLASH ∈ index_path →
   ∃ file, index_path = get_extension_directory index_path ++ SLASH :: file
           ∧ SLASH ∉ file)
  ∧ (SLASH ∉ index_path → get_extension_directory index_path = []).
Proof.
  unfold get_extension_directory.
  destruct (lastIndexOf_spec index_path SLASH)
    as [[Hr Hs] | (pre & post & -> & Hpost & Hr)]; rewrite Hr.
  - split; [intros Hin; destruct (Hs Hin) | intros _; by destruct index_path].
  - split.
    + intros _. exists post. split; [|exact Hpost].
      rewrite substring_prefix by (rewrite length_app; lia).
      by rewrite take_app_length.
    + intros Hout. exfalso. apply Hout. apply elem_of_app. right. left.
Qed.

Lemma get_extension_directory_spec_witness :
  ∃ file,
    str "/scripts/extensions/third-party/RCMM/index.js"
    = get_extension_directory (str "/scripts/extensions/third-party/RCMM/index.js")
      ++ SLASH :: file
    ∧ SLASH ∉ file.
Proof.
  apply (proj1 (get_extension_directory_spec
                  (str "/scripts/extensions/third-party/RCMM/index.js"))).
  apply (bool_decide_unpack _). vm_compute. exact I.
Defined.

End Directory.

(** ** Settings *)

Section Settings.

Implicit Types (p : page) (m : gmap jsstring setting_value).

(** X6.  After [initialize_settings] every stored setting has its stored
    value and every other default its default value; [get_settings] returns
    for every key what it returned before; and initialising twice is
    initialising once. *)
Theorem initialize_settings_spec stored :
  (∀ key, initialize_settings stored !! key
          = match stored ≫= (fun m => m !! key) with
            | Some v => Some v
            | None => default_settings !! key
            end)
  ∧ (∀ p key,
       get_settings (with_settings p (initialize_settings (Some (extension_settings p)))) key
       = get_settings p key)
  ∧ initialize_settings (Some (initialize_settings stored)) = initialize_settings stored.
Proof.
  assert (Hlookup : ∀ m key,
            (m ∪ default_settings) !! key
            = match m !! key with Some v => Some v | None => default_settings !! key end).
  { intros m key. rewrite lookup_union. destruct (m !! key), (default_settings !! key);
      reflexivity. }
  split; [|split].
  - intros key. destruct stored as [m|]; cbn; [apply Hlookup | reflexivity].
  - intros p key. unfold get_settings. cbn [with_settings extension_settings initialize_settings].
    rewrite Hlookup. destruct (extension_settings p !! str key) as [v|]; [reflexivity|].
    by destruct (default_settings !! str key).
  - cbn [initialize_settings]. apply map_eq. intros key. rewrite Hlookup.
    destruct (initialize_settings stored !! key) as [v|] eqn:E; [reflexivity|].
    destruct stored as [m|]; cbn [initialize_settings] in E.
    + rewrite Hlookup in E. by destruct (m !! key).
    + exact E.
Qed.

End Settings.

(** ** [toggle_message_buttons] *)

Section Toolbars.

Implicit Types (p : page) (cls : list jsstring) (c : jsstring).

Lemma add_class_spec c cls :
  c ∈ add_class c cls ∧ remove_class c (add_class c cls) = remove_class c cls.
Proof.
  unfold add_class, remove_class. case_bool_decide as Hc; [by split|]. split.
  - apply elem_of_app. right. left.
  - rewrite filter_app, filter_cons_False by tauto. by rewrite filter_nil, app_nil_r.
Qed.

Lemma remove_class_spec c cls :
  (c ∉ remove_class c cls)
  ∧ remove_class c (remove_class c cls) = remove_class c cls.
Proof.
  unfold remove_class. split.
  - intros Hin. apply list_elem_of_filter in Hin as [Hne _]. by apply Hne.
  - apply list_filter_filter_l. tauto.
Qed.

Lemma add_class_idem c cls : add_class c (add_class c cls) = add_class c cls.
Proof.
  destruct (add_class_spec c cls) as [Hin _].
  unfold add_class at 1. by rewrite bool_decide_eq_true_2.
Qed.

(** X8.  After [toggle_message_buttons] every toolbar carries the class
    [force_hidden] exactly when the setting [hide_message_buttons] is on; its
    other classes and their order are as before; and toggling again changes
    nothing. *)
Theorem toggle_message_buttons_spec p toolbars :
  Forall2 (fun cls cls' =>
             (hide_buttons_class ∈ cls'
              ↔ setting_truthy (get_settings p "hide_message_buttons") = true)
             ∧ remove_class hide_buttons_class cls'
               = remove_class hide_buttons_class cls)
          toolbars (toggle_message_buttons p toolbars)
  ∧ toggle_message_buttons p (toggle_message_buttons p toolbars)
    = toggle_message_buttons p toolbars.
Proof.
  unfold toggle_message_buttons.
  destruct (setting_truthy (get_settings p "hide_message_buttons")); split.
  - apply Forall2_fmap_r, Forall_Forall2_diag, Forall_forall. intros cls _.
    destruct (add_class_spec hide_buttons_class cls) as [Hin Hrest]. by split.
  - rewrite <- list_fmap_compose. apply list_fmap_ext. intros i cls _.
    apply add_class_idem.
  - apply Forall2_fmap_r, Forall_Forall2_diag, Forall_forall. intros cls _.
    destruct (remove_class_spec hide_buttons_class cls) as [Hout Hrest].
    split; [|exact Hrest]. split; [intros Hin; by destruct (Hout Hin) | discriminate].
  - rewrite <- list_fmap_compose. apply list_fmap_ext. intros i cls _.
    apply remove_class_spec.
Qed.

End Toolbars.

(** ** More on the tooltip parser *)

Section TooltipMore.

Implicit Types (s t : jsstring) (i j : nat).

(** X9.  A tooltip that is no key of the override table, names no member of
    [Object.prototype] and holds no delimiter is returned as the text, with
    an empty title. *)
Theorem parse_tooltip_raw s :
  button_name_map !! s = None →
  s ∉ Object_prototype →
  (∀ i, ¬ delimiter_at s i) →
  parse_tooltip (Some s) = Label (VString s) [].
Proof.
  intros Hown Hin Hnone. apply parse_tooltip_plain; [|exact Hnone].
  unfold get_property. rewrite Hown. by rewrite bool_decide_eq_false_2.
Qed.

Lemma parse_tooltip_raw_witness :
  parse_tooltip (Some (str "Copy")) = Label (VString (str "Copy")) [].
Proof.
  apply (parse_tooltip_raw (str "Copy")).
  - vm_compute. reflexivity.
  - apply (bool_decide_unpack _). vm_compute. exact I.
  - intros i Hi. pose proof (delimiter_at_lt _ _ Hi) as Hlt.
    apply delimiter_here_spec in Hi. change (length _) with 4%nat in Hlt.
    do 4 (destruct i as [|i]; [vm_compute in Hi; discriminate|]). lia.
Defined.

(** X10.  Where a delimiter is found, the text neither begins nor ends
    with white space. *)
Theorem parse_tooltip_text_trimmed s i :
  button_name_map !! s = None →
  delimiter_at s i →
  ∃ txt, text (parse_tooltip (Some s)) = VString txt
         ∧ (∀ c, head txt = Some c → regex_s c = false)
         ∧ (∀ c, last txt = Some c → regex_s c = false).
Proof.
  intros Hown Hd.
  destruct (first_delimiter_exists s i Hd) as (idx & Hfirst & _).
  pose proof (splits_at_first s idx Hown Hfirst) as H. unfold splits_at in H.
  rewrite H. eexists. split; [reflexivity|].
  split; intros c; apply trim_ends.
Qed.

Lemma parse_tooltip_text_trimmed_witness :
  ∃ txt, text (parse_tooltip (Some (str "  Swipe left  - go back"))) = VString txt
         ∧ (∀ c, head txt = Some c → regex_s c = false)
         ∧ (∀ c, last txt = Some c → regex_s c = false).
Proof.
  apply (parse_tooltip_text_trimmed (str "  Swipe left  - go back") 13).
  - vm_compute. reflexivity.
  - apply delimiter_here_spec. vm_compute. reflexivity.
Defined.

Lemma filter_kept_white_space (l : jsstring) :
  Forall (fun c => regex_s c = true) l → filter kept l = [].
Proof.
  induction 1 as [|c l Hc _ IH]; [reflexivity|].
  rewrite filter_cons_False; [exact IH|].
  unfold kept, is_marker. by rewrite Hc.
Qed.

(** X11.  For every tooltip for which the property read yields nothing,
    text followed by title is a subsequence of the tooltip, and every code
    unit of the tooltip other than white space, hyphens and parentheses is
    in it: the parser invents nothing and drops markers only. *)
Theorem parse_tooltip_keeps_characters s :
  get_property button_name_map s = None →
  ∃ txt, text (parse_tooltip (Some s)) = VString txt
         ∧ txt ++ title (parse_tooltip (Some s)) `sublist_of` s
         ∧ filter kept (txt ++ title (parse_tooltip (Some s))) = filter kept s.
Proof.
  intros Hget. destruct (decide (s = [])) as [->|Hne].
  { exists []. by repeat split. }
  rewrite parse_tooltip_unmapped by assumption.
  destruct (search_from_cases 0 s) as [[Hs _] | (i & Hs & Hi & Hlt)];
    fold (search s) in Hs; rewrite Hs.
  - cbn. exists s. rewrite app_nil_r. by repeat split.
  - assert (Hlen : (i < length s)%nat)
      by (apply (delimiter_at_lt s i); by apply delimiter_here_spec).
    rewrite bool_decide_eq_true_2 by lia. rewrite Z.add_0_l.
    rewrite slice_prefix, slice_suffix by lia. cbn [text title].
    exists (trim (take i s)).
    destruct (trim_split (take i s)) as (l & r & Hsplit & Hl & Hr).
    split; [reflexivity|]. split.
    + rewrite <- (take_drop i s) at 3. apply sublist_app; [|apply strip_markers_sublist].
      rewrite Hsplit at 2. apply sublist_inserts_l, sublist_inserts_r. reflexivity.
    + rewrite <- (take_drop i s) at 3. rewrite !filter_app, strip_markers_kept.
      f_equal. rewrite Hsplit at 2. rewrite !filter_app.
      by rewrite (filter_kept_white_space l Hl), (filter_kept_white_space r Hr), app_nil_r.
Qed.

Lemma parse_tooltip_keeps_characters_witness :
  ∃ txt, text (parse_tooltip (Some (str "Swipe left - go back (x)"))) = VString txt
         ∧ txt ++ title (parse_tooltip (Some (str "Swipe left - go back (x)")))
           `sublist_of` str "Swipe left - go back (x)"
         ∧ filter kept (txt ++ title (parse_tooltip (Some (str "Swipe left - go back (x)"))))
           = filter kept (str "Swipe left - go back (x)").
Proof.
  apply (parse_tooltip_keeps_characters (str "Swipe left - go back (x)")).
  vm_compute. reflexivity.
Defined.

(** *** The two revisions of the parser *)

Lemma no_dash_delimiter_here s :
  (∀ j, ¬ dash_at s j) → ∀ j, delimiter_here (drop j s) = group_here (drop j s).
Proof.
  intros Hno j. unfold delimiter_here.
  destruct (dash_here (drop j s)) eqn:E; [|reflexivity].
  apply dash_here_spec in E. destruct (Hno j E).
Qed.

Lemma search_from_no_dash k s :
  (∀ j, delimiter_here (drop j s) = group_here (drop j s)) →
  Earlier.search_from k s = search_from k s.
Proof.
  revert k. induction s as [|c s IH]; intros k Hno.
  - reflexivity.
  - cbn [Earlier.search_from search_from].
    rewrite (Hno 0%nat : delimiter_here (c :: s) = group_here (c :: s)).
    destruct (group_here (c :: s)); [reflexivity|].
    apply IH. intros j. apply (Hno (S j)).
Qed.

(** Without a hyphen delimiter the marker removal deletes parentheses
    only. *)
Lemma remove_parentheses_replace_markers b t :
  (∀ j, dash_here (drop j t) = false) →
  Earlier.remove_parentheses (replace_markers 0 b t) = Earlier.remove_parentheses t.
Proof.
  revert b. induction t as [|c t IH]; intros b Hno; [reflexivity|].
  cbn [replace_markers]. rewrite (Hno 0%nat : dash_here (c :: t) = false).
  assert (Ht : ∀ j, dash_here (drop j t) = false) by (intros j; apply (Hno (S j))).
  unfold Earlier.remove_parentheses in *.
  destruct (b && (c =? LPAREN)%N) eqn:El.
  { apply andb_true_iff in El as [_ El]. apply N.eqb_eq in El as ->.
    rewrite (filter_cons_False _ LPAREN) by tauto. by apply IH. }
  destruct ((c =? RPAREN)%N && bool_decide (t = [])) eqn:Er.
  { apply andb_true_iff in Er as [Er _]. apply N.eqb_eq in Er as ->.
    rewrite (filter_cons_False _ RPAREN) by tauto. by apply IH. }
  rewrite !filter_cons. rewrite IH by assumption. reflexivity.
Qed.

Lemma property_names_without_parentheses :
  Forall (Forall (fun c => c ≠ LPAREN ∧ c ≠ RPAREN))
         (str "Exclude message from prompts" :: Object_prototype).
Proof. apply (bool_decide_unpack _). vm_compute. exact I. Qed.

Lemma remove_parentheses_id s :
  Forall (fun c => c ≠ LPAREN ∧ c ≠ RPAREN) s → Earlier.remove_parentheses s = s.
Proof.
  unfold Earlier.remove_parentheses. induction 1 as [|c s Hc _ IH]; [reflexivity|].
  rewrite filter_cons_True by assumption. by rewrite IH.
Qed.

(** X12.  On every tooltip without a hyphen delimiter the two revisions of
    [parse_tooltip] agree up to white space and parentheses: the earlier
    title is the later title without its parentheses, and the later text is
    the earlier text, or the earlier text trimmed.  On an absent tooltip the
    earlier revision throws where the later one returns two empty fields. *)
Theorem parse_tooltip_revisions :
  (∀ s, (∀ j, ¬ dash_at s j) →
     ∃ old, Earlier.parse_tooltip (Some s) = Some old
            ∧ title old = Earlier.remove_parentheses (title (parse_tooltip (Some s)))
            ∧ (text (parse_tooltip (Some s)) = text old
               ∨ ∃ t, text old = VString t
                      ∧ text (parse_tooltip (Some s)) = VString (trim t)))
  ∧ Earlier.parse_tooltip None = None
  ∧ parse_tooltip None = Label (VString []) [].
Proof.
  split; [|by split]. intros s Hno.
  pose proof property_names_without_parentheses as Hnames.
  apply Forall_cons in Hnames as [Hkey Hproto]. rewrite Forall_forall in Hproto.
  destruct (button_name_map !! s) as [v|] eqn:Hown.
  { unfold button_name_map in Hown. apply lookup_singleton_Some in Hown as [<- <-].
    eexists. split; [vm_compute; reflexivity|]. split; [vm_compute; reflexivity|].
    left. vm_compute. reflexivity. }
  destruct (decide (s ∈ Object_prototype)) as [Hin|Hout].
  { rewrite (parse_tooltip_inherited s Hin). exists (Label (VInherited s) s).
    split; [|split; [symmetry; apply remove_parentheses_id; by apply Hproto | by left]].
    unfold Earlier.parse_tooltip, get_property. rewrite Hown.
    rewrite bool_decide_eq_true_2 by assumption. reflexivity. }
  assert (Hget : get_property button_name_map s = None).
  { unfold get_property. rewrite Hown. by rewrite bool_decide_eq_false_2. }
  destruct (decide (s = [])) as [->|Hne].
  { eexists. split; [reflexivity|]. split; [reflexivity | by left]. }
  rewrite parse_tooltip_unmapped by assumption.
  unfold Earlier.parse_tooltip, Earlier.search. rewrite Hget.
  pose proof (no_dash_delimiter_here s Hno) as Hgroup.
  rewrite (search_from_no_dash 0 s Hgroup). fold (search s).
  destruct (search_from_cases 0 s) as [[Hs _] | (i & Hs & Hi & Hlt)];
    fold (search s) in Hs; rewrite Hs.
  - eexists. split; [reflexivity|]. split; [reflexivity | by left].
  - assert (Hlen : (i < length s)%nat)
      by (apply (delimiter_at_lt s i); by apply delimiter_here_spec).
    rewrite bool_decide_eq_true_2 by lia. rewrite Z.add_0_l.
    rewrite slice_prefix, slice_suffix by lia.
    eexists. split; [reflexivity|]. cbn [text title]. split.
    + unfold strip_markers. symmetry. apply remove_parentheses_replace_markers.
      intros j. rewrite drop_drop.
      destruct (dash_here (drop (i + j) s)) eqn:E; [|reflexivity].
      apply dash_here_spec in E. destruct (Hno _ E).
    + right. eauto.
Qed.

Lemma parse_tooltip_revisions_witness :
  ∃ old, Earlier.parse_tooltip (Some (str "Translate (Google)")) = Some old
         ∧ title old
           = Earlier.remove_parentheses
               (title (parse_tooltip (Some (str "Translate (Google)"))))
         ∧ (text (parse_tooltip (Some (str "Translate (Google)"))) = text old
            ∨ ∃ t, text old = VString t
                   ∧ text (parse_tooltip (Some (str "Translate (Google)")))
                     = VString (trim t)).
Proof.
  apply (proj1 parse_tooltip_revisions (str "Translate (Google)")).
  intros j Hj. pose proof (delimiter_at_lt _ _ (or_introl Hj)) as Hlt.
  apply dash_here_spec in Hj. change (length _) with 18%nat in Hlt.
  do 18 (destruct j as [|j]; [vm_compute in Hj; discriminate|]). lia.
Defined.

End TooltipMore.

(** ** More on the button collector and the menu builder *)

Section CollectorMore.

Implicit Types (p q : page) (m : message) (e d : element).

Lemma filter_no_edit (others : list element) :
  Forall (fun x => ¬ has_class "mes_edit" x) others →
  filter (has_class "mes_edit") others = [].
Proof.
  induction 1 as [|x l Hx _ IH]; [reflexivity|].
  by rewrite filter_cons_False.
Qed.

(** X13.  When the edit control is the last button of the toolbar, and the
    only edit control, the collector returns the edit control, then the other
    buttons in their order, then the first delete control: every button
    once. *)
Theorem get_buttons_edit_last p m others e :
  selected m = others ++ [e] →
  has_class "mes_edit" e →
  Forall (fun x => ¬ has_class "mes_edit" x) others →
  snd (get_buttons p m)
  = Node e :: (Node <$> others) ++ [first_of (delete_controls m)].
Proof.
  intros Hsel He Hothers.
  assert (Hedit : filter (has_class "mes_edit") (selected m) = [e]).
  { rewrite Hsel, filter_app, (filter_no_edit others Hothers).
    by rewrite filter_cons_True. }
  rewrite (get_buttons_with_edit p m e [] Hedit). f_equal. f_equal.
  rewrite Hsel, fmap_app, length_app. cbn [length].
  apply take_app_length'. rewrite length_fmap. lia.
Qed.

Lemma get_buttons_edit_last_witness :
  snd (get_buttons Scenario.fresh_page Scenario.edit_last)
  = Node <$> [Scenario.edit_button; Scenario.b0; Scenario.b1; Scenario.b3;
              Scenario.b4; Scenario.delete_button].
Proof.
  apply (get_buttons_edit_last Scenario.fresh_page Scenario.edit_last
           [Scenario.b0; Scenario.b1; Scenario.b3; Scenario.b4]
           Scenario.edit_button).
  - vm_compute. reflexivity.
  - apply (bool_decide_unpack _). vm_compute. exact I.
  - apply (bool_decide_unpack _). vm_compute. exact I.
Defined.

Lemma on_click_other l targets p n :
  n ∉ node <$> targets →
  click_listeners (on_click l p targets) !! n = click_listeners p !! n.
Proof.
  revert p. induction targets as [|e targets IH]; intros p Hn; [reflexivity|].
  rewrite fmap_cons in Hn. apply not_elem_of_cons in Hn as [Hne Hn].
  rewrite on_click_cons, (IH _ Hn). cbn [set_listeners click_listeners].
  by rewrite lookup_insert_ne.
Qed.

(** X14.  A collection changes nothing on the page but the click listeners
    of the delete controls of the message: every other element keeps its
    listeners, and settings, styles, menu, tap time, screen and effects are
    as before. *)
Theorem get_buttons_frame p m :
  (∀ n, n ∉ node <$> delete_controls m →
        click_listeners (fst (get_buttons p m)) !! n = click_listeners p !! n)
  ∧ extension_settings (fst (get_buttons p m)) = extension_settings p
  ∧ computed_display (fst (get_buttons p m)) = computed_display p
  ∧ the_menu (fst (get_buttons p m)) = the_menu p
  ∧ last_tap (fst (get_buttons p m)) = last_tap p
  ∧ screen (fst (get_buttons p m)) = screen p
  ∧ effects (fst (get_buttons p m)) = effects p.
Proof.
  rewrite get_buttons_page. split; [|apply on_click_frame].
  intros n Hn. by apply on_click_other.
Qed.

Lemma get_buttons_frame_witness :
  click_listeners (fst (get_buttons Scenario.fresh_page Scenario.five_buttons)) !! 2%nat
  = click_listeners Scenario.fresh_page !! 2%nat.
Proof.
  apply (proj1 (get_buttons_frame Scenario.fresh_page Scenario.five_buttons) 2%nat).
  apply (bool_decide_unpack _). vm_compute. exact I.
Defined.

Lemma Undefined_not_Node (es : list element) : Undefined ∉ (Node <$> es : list jsval).
Proof. intros Hin. apply list_elem_of_fmap in Hin as (x & Hx & _). discriminate. Qed.

Lemma collected_Undefined p m edit :
  Undefined ∈ collected p m edit
  ↔ edit = false ∧ filter (has_class "mes_edit") (selected m) ≠ []
    ∧ delete_controls m = [].
Proof.
  unfold collected. destruct edit.
  - split; [|by intros [? _]]. intros Hin. by apply Undefined_not_Node in Hin.
  - destruct (filter (has_class "mes_edit") (selected m)) as [|e es] eqn:Hedit.
    + rewrite (get_buttons_without_edit p m Hedit).
      split; [|by intros (_ & ? & _)]. intros Hin. by apply Undefined_not_Node in Hin.
    + rewrite (get_buttons_with_edit p m e es Hedit).
      split.
      * intros Hin. split; [reflexivity|]. split; [discriminate|].
        apply elem_of_cons in Hin as [Hin | Hin]; [discriminate|].
        apply elem_of_app in Hin as [Hin | Hin].
        { rewrite <- fmap_take in Hin. by apply Undefined_not_Node in Hin. }
        apply list_elem_of_singleton in Hin.
        destruct (delete_controls m); [reflexivity | discriminate].
      * intros (_ & _ & ->). right. apply elem_of_app. right. left.
Qed.

(** X15.  A build in a mode other than "disabled" ends with a [TypeError]
    exactly when the message is not being edited, its toolbar has an edit
    control and the message has no delete control: the collected list then
    ends with [undefined]. *)
Theorem update_menu_throws p m edit :
  menu_mode_is p "disabled" = false →
  snd (update_menu p m edit) = Thrown
  ↔ edit = false ∧ filter (has_class "mes_edit") (selected m) ≠ []
    ∧ delete_controls m = [].
Proof.
  intros Hd. rewrite <- collected_Undefined.
  destruct (update_menu_enabled p m edit Hd) as (mn & _ & _ & _ & _ & Hc).
  destruct (snd (update_menu p m edit)).
  - split; [discriminate|]. intros Hin. by apply Hc in Hin.
  - split; [intros _|reflexivity].
    destruct (decide (Undefined ∈ collected p m edit)) as [|Hout]; [assumption|].
    apply Hc in Hout. discriminate.
Qed.

Lemma update_menu_throws_witness :
  snd (update_menu Scenario.fresh_page Scenario.no_delete_control false) = Thrown.
Proof.
  apply (update_menu_throws Scenario.fresh_page Scenario.no_delete_control false).
  - vm_compute. reflexivity.
  - split; [reflexivity|]. split; [vm_compute; discriminate | vm_compute; reflexivity].
Defined.

Lemma mode_classes_differ : vertical_menu_class ≠ horizontal_menu_class.
Proof. intros H. vm_compute in H. discriminate. Qed.

Lemma removeClass_classes cs mn c :
  c ∈ menu_classes (removeClass cs mn) ↔ (c ∉ cs) ∧ c ∈ menu_classes mn.
Proof. unfold removeClass. cbn [menu_classes]. by rewrite list_elem_of_filter. Qed.

Lemma addClass_classes c mn x :
  x ∈ menu_classes (addClass c mn) ↔ x = c ∨ x ∈ menu_classes mn.
Proof.
  unfold addClass. cbn [menu_classes]. case_bool_decide as Hc.
  - split; [by right | by intros [-> | ?]].
  - rewrite elem_of_app, list_elem_of_singleton. tauto.
Qed.

(** X16.  After every build the menu carries at most one of the two mode
    classes, whatever classes it carried before: the horizontal class exactly
    in horizontal mode, the vertical class exactly in a mode that is neither
    "disabled" nor "horizontal". *)
Theorem update_menu_mode_classes p m edit :
  ∃ mn, the_menu (fst (update_menu p m edit)) = Some mn
        ∧ (horizontal_menu_class ∈ menu_classes mn
           ↔ menu_mode_is p "disabled" = false ∧ menu_mode_is p "horizontal" = true)
        ∧ (vertical_menu_class ∈ menu_classes mn
           ↔ menu_mode_is p "disabled" = false ∧ menu_mode_is p "horizontal" = false).
Proof.
  unfold update_menu.
  set (base := removeClass [vertical_menu_class; horizontal_menu_class] _).
  assert (Hh : horizontal_menu_class ∉ menu_classes base).
  { unfold base. rewrite removeClass_classes. intros [Hout _]. apply Hout.
    right. left. }
  assert (Hv : vertical_menu_class ∉ menu_classes base).
  { unfold base. rewrite removeClass_classes. intros [Hout _]. apply Hout. left. }
  pose proof mode_classes_differ as Hne.
  destruct (menu_mode_is p "disabled") eqn:Hd.
  - exists base. cbn [fst set_menu the_menu]. split; [reflexivity|].
    split; (split; [intros Hin; by exfalso | by intros [? _]]).
  - set (m1 := if menu_mode_is p "horizontal" then _ else _).
    assert (Hm1 : (horizontal_menu_class ∈ menu_classes m1
                   ↔ menu_mode_is p "horizontal" = true)
                  ∧ (vertical_menu_class ∈ menu_classes m1
                     ↔ menu_mode_is p "horizontal" = false)).
    { unfold m1. destruct (menu_mode_is p "horizontal"); rewrite !addClass_classes;
        cbn [set_max_width menu_classes max_width addClass]; split.
      - split; [reflexivity | by left].
      - split; [|discriminate]. intros [? | ?]; [congruence | by exfalso].
      - split; [|discriminate]. intros [? | ?]; [congruence | by exfalso].
      - split; [reflexivity | by left]. }
    destruct Hm1 as (H1 & H2).
    assert (Hfinal : ∃ its, the_menu (fst (
              let p0 := set_menu p (Some m1) in
              let '(p1, buttons) := if edit then (p0, get_edit_buttons m)
                                    else get_buttons p0 m in
              let '(its, c) := add_items p1 (menu_mode_is p1 "vertical") buttons [] in
              (set_menu p1 (Some (set_items its m1)), c))) = Some (set_items its m1)).
    { cbn zeta. destruct edit; [|destruct (get_buttons _ m) as [p1 bs]];
        destruct (add_items _ _ _ _) as [its c]; by exists its. }
    destruct Hfinal as [its Hfinal]. exists (set_items its m1).
    split; [exact Hfinal|]. cbn [set_items menu_classes].
    split; [rewrite H1 | rewrite H2]; tauto.
Qed.

End CollectorMore.

(** ** More on the positioner and the listeners *)

Section ControllerMore.

Variable layout : menu -> Z * Z.

Implicit Types (p q : page) (ev : ui_event) (e : pointer_event).

(** X17.  With the pointer on the screen, a menu that fits on one side of
    the pointer on each axis (after it, or before it) is placed with its
    whole measured box on the screen. *)
Theorem set_menu_position_inside p mn x y :
  the_menu p = Some mn →
  0 <= x <= fst (screen p) → 0 <= y <= snd (screen p) →
  x + fst (getBoundingClientRect layout mn) <= fst (screen p)
  ∨ fst (getBoundingClientRect layout mn) <= x →
  y + snd (getBoundingClientRect layout mn) <= snd (screen p)
  ∨ snd (getBoundingClientRect layout mn) <= y →
  ∃ mn', the_menu (fst (set_menu_position layout p (Some x) (Some y))) = Some mn'
         ∧ inside (left mn') (fst (getBoundingClientRect layout mn)) (fst (screen p))
         ∧ inside (top mn') (snd (getBoundingClientRect layout mn)) (snd (screen p)).
Proof.
  intros Hm Hx Hy Hfx Hfy.
  destruct (set_menu_position_axes layout p mn (Some x) (Some y) Hm)
    as (mn' & Hm' & Hl & Ht & _).
  exists mn'. split; [exact Hm'|]. rewrite Hl, Ht.
  split.
  - pose proof (flip_inside x _ _ Hx Hfx) as (v & Hv & ?).
    rewrite Hv. by exists v.
  - pose proof (flip_inside y _ _ Hy Hfy) as (v & Hv & ?).
    rewrite Hv. by exists v.
Qed.

Lemma on_document_click_visible q :
  menu_visible (on_document_click q)
  = menu_visible q && menu_mode_is q "disabled".
Proof.
  unfold on_document_click, menu_visible.
  destruct (menu_mode_is q "disabled"); [by rewrite andb_true_r|].
  rewrite andb_false_r. destruct (the_menu q) as [mn|] eqn:Hm; [|by rewrite Hm].
  destruct (display_none mn) eqn:Hn; [by rewrite Hm, Hn | reflexivity].
Qed.

Lemma on_document_click_menu_mode q mode :
  menu_mode_is (on_document_click q) mode = menu_mode_is q mode.
Proof.
  apply menu_mode_is_settings. by destruct (on_document_click_frame q) as (_ & -> & _).
Qed.

Lemma run_listeners_visible q ls :
  menu_visible (foldl run_listener q ls) = menu_visible q.
Proof.
  unfold menu_visible. by destruct (run_listeners_frame q ls) as (_ & -> & _).
Qed.

Lemma trigger_visible q t el :
  menu_visible (trigger q t el) = true → menu_visible q = true.
Proof.
  destruct t; cbn [trigger]; [|by intros H].
  rewrite on_document_click_visible. intros H. apply andb_true_iff in H as [H _].
  unfold menu_visible in *. cbn [emit the_menu] in H.
  by destruct (run_listeners_frame q (default [] (click_listeners q !! node el)))
    as (_ & <- & _).
Qed.

Lemma activate_visible q it :
  menu_visible (activate q it) = true → menu_visible q = true.
Proof.
  unfold activate. rewrite on_document_click_visible. intros H.
  apply andb_true_iff in H as [H _].
  by apply trigger_visible, trigger_visible in H.
Qed.

(** X19.  A hidden menu becomes visible by a gesture only, and only in a
    mode other than "disabled": by a right-click while double tap is off, or
    by a tap that follows the last one by more than 0 and less than 300
    milliseconds while double tap is on.  No click, item activation or change
    of a setting shows the menu. *)
Theorem menu_shown_by_gesture_only p ev :
  menu_visible p = false →
  menu_visible (step layout p ev) = true →
  menu_mode_is p "disabled" = false
  ∧ ((∃ e, ev = contextmenu e
           ∧ setting_truthy (get_settings p "double_tap") = false)
     ∨ (∃ e t, ev = touchend e t
               ∧ setting_truthy (get_settings p "double_tap") = true
               ∧ 0 < t - last_tap p < 300)).
Proof.
  intros Hhid Hvis.
  destruct (menu_mode_is p "disabled") eqn:Hd.
  { exfalso. unfold menu_visible in *.
    rewrite (step_disabled layout p ev Hd) in Hvis. congruence. }
  split; [reflexivity|].
  destruct ev as [e|e t| |i|c]; cbn [step] in Hvis.
  - left. exists e. split; [reflexivity|]. unfold on_contextmenu in Hvis.
    destruct (setting_truthy (get_settings p "double_tap")); [|reflexivity].
    cbn in Hvis. congruence.
  - right. exists e, t. split; [reflexivity|]. unfold on_touchend in Hvis.
    destruct (Z.ltb_spec (t - last_tap p) 300) as [Hlt|Hge];
      destruct (Z.gtb_spec (t - last_tap p) 0) as [Hgt|Hle];
      destruct (setting_truthy (get_settings p "double_tap"));
      cbn [andb] in Hvis;
      try (cbn in Hvis; unfold menu_visible in *; cbn in Hvis; congruence).
    split; [reflexivity | lia].
  - rewrite on_document_click_visible in Hvis.
    apply andb_true_iff in Hvis as [Hvis _]. congruence.
  - destruct (the_menu p) as [mn|] eqn:Hm; [|congruence].
    destruct (items mn !! i) as [it|]; [|congruence].
    apply activate_visible in Hvis. congruence.
  - unfold menu_visible in *.
    destruct c; cbn [on_change set_settings the_menu] in Hvis; congruence.
Qed.

(** X20.  A click on a menu item runs the click listeners bound on its
    source button, in the order of their registration, and then hands the
    host one click on that button.  What follows, the pointerup trigger,
    runs none of these listeners and hands over no click again.  No listener
    is added or removed, and in a mode other than "disabled" the menu is
    hidden afterwards. *)
Theorem item_activation p it :
  (∃ rest,
     effects (activate p it)
     = effects p
       ++ (effect_of <$> default [] (click_listeners p !! node (source it)))
       ++ HostDispatch click (node (source it)) :: rest
     ∧ ∀ x : effect, x ∈ rest →
             (∀ n, x ≠ HostDispatch click n) ∧ (∀ n, x ≠ setEditedMessageId n))
  ∧ click_listeners (activate p it) = click_listeners p
  ∧ (menu_mode_is p "disabled" = false → menu_visible (activate p it) = false).
Proof.
  split; [|split].
  - exists [HostDispatch pointerup (node (source it))].
    split; [apply activate_effects|].
    intros x Hx. apply list_elem_of_singleton in Hx as ->.
    split; intros n; discriminate.
  - unfold activate.
    destruct (on_document_click_frame
                (trigger (trigger p click (source it)) pointerup (source it)))
      as (_ & _ & ->).
    cbn [trigger emit click_listeners]. fold (trigger p click (source it)).
    apply trigger_click_listeners.
  - intros Hd. unfold activate. rewrite on_document_click_visible.
    rewrite (menu_mode_is_settings _ p), Hd, andb_false_r; [reflexivity|].
    destruct (trigger_frame (trigger p click (source it)) pointerup (source it))
      as [-> _].
    by destruct (trigger_frame p click (source it)) as [-> _].
Qed.

(** What the gesture handler does in a mode other than "disabled" when the
    collected list holds no [undefined]: it ends normally with the menu
    shown, holding the items of the visible collected buttons. *)
Lemma handle_interaction_enabled p e :
  menu_mode_is p "disabled" = false →
  Undefined ∉ collected p (target_message e)
                (bool_decide (0 < length (edit_textarea (target_message e)))%nat) →
  snd (handle_interaction layout p e) = Normal
  ∧ extension_settings (fst (handle_interaction layout p e)) = extension_settings p
  ∧ last_tap (fst (handle_interaction layout p e)) = last_tap p
  ∧ ∃ mn, the_menu (fst (handle_interaction layout p e)) = Some mn
          ∧ display_none mn = false
          ∧ source <$> items mn
            = filter (fun b => ¬ hidden p b)
                (buttons_of (collected p (target_message e)
                   (bool_decide (0 < length (edit_textarea (target_message e)))%nat))).
Proof.
  intros Hd Hdef. unfold handle_interaction. rewrite Hd.
  set (edit := bool_decide _) in *. set (q := emit p preventDefault).
  destruct (update_menu_enabled q (target_message e) edit Hd)
    as (mn & Hmenu & Hitems & _ & _ & Hc).
  rewrite (collected_any_page q p) in Hc, Hitems. apply Hc in Hdef.
  assert (Hframe : extension_settings (fst (update_menu q (target_message e) edit))
                   = extension_settings p
                   ∧ last_tap (fst (update_menu q (target_message e) edit))
                     = last_tap p).
  { unfold update_menu. change (menu_mode_is q "disabled") with (menu_mode_is p "disabled").
    rewrite Hd. cbn zeta.
    destruct edit.
    - destruct (add_items _ _ _ _) as [its c]. by split.
    - match goal with |- context [get_buttons ?q0 ?m0] =>
        pose proof (on_click_frame (SetEdited (mesid m0)) q0 (delete_controls m0))
          as (Hs & _ & _ & Ht & _);
        rewrite <- (get_buttons_page q0 m0) in Hs, Ht;
        destruct (get_buttons q0 m0) as [p1 bs] end.
      cbn [fst] in Hs, Ht.
      destruct (add_items _ _ _ _) as [its c]. cbn. by rewrite Hs, Ht. }
  destruct Hframe as [Hset Htap].
  destruct (update_menu q (target_message e) edit) as [p1 c].
  cbn [fst snd] in Hmenu, Hdef, Hset, Htap. subst c.
  unfold set_menu_position. rewrite Hmenu. cbn [show set_menu the_menu fst snd].
  cbn [extension_settings last_tap set_display_none display_none items].
  split; [reflexivity|]. split; [exact Hset|]. split; [exact Htap|].
  eexists. split; [reflexivity|]. split; [reflexivity|].
  rewrite Hitems. change (hidden q) with (hidden p). apply source_make_item.
Qed.

(** X21.  In a mode other than "disabled" and with double tap off, a
    right-click on a message whose collected list holds no [undefined] shows
    the menu.  The build has made one [$menu_item] for each collected button
    that is not hidden, in order; and when no item is made of a title with a
    double quote or of a text with [<], the menu holds exactly one [div] for
    each of these buttons. *)
Theorem right_click_shows_menu p e :
  menu_mode_is p "disabled" = false →
  setting_truthy (get_settings p "double_tap") = false →
  Undefined ∉ collected p (target_message e)
                (bool_decide (0 < length (edit_textarea (target_message e)))%nat) →
  menu_visible (step layout p (contextmenu e)) = true
  ∧ ∃ mn, the_menu (step layout p (contextmenu e)) = Some mn
          ∧ source <$> items mn
            = filter (fun b => ¬ hidden p b)
                (buttons_of (collected p (target_message e)
                   (bool_decide (0 < length (edit_textarea (target_message e)))%nat)))
          ∧ (Forall plain_item (items mn) →
             menu_nodes (items mn)
             = Some (replicate
                       (length (filter (fun b => ¬ hidden p b)
                          (buttons_of (collected p (target_message e)
                             (bool_decide
                                (0 < length (edit_textarea (target_message e)))%nat)))))
                       (TopElement Div))).
Proof.
  intros Hd Hdt Hdef. cbn [step]. unfold on_contextmenu. rewrite Hdt. cbn [negb].
  destruct (handle_interaction_enabled p e Hd Hdef) as (_ & _ & _ & mn & Hm & Hvis & Hit).
  unfold menu_visible. rewrite Hm, Hvis. split; [reflexivity|]. exists mn.
  split; [reflexivity|]. split; [exact Hit|].
  intros Hplain. rewrite (menu_nodes_plain _ Hplain).
  by rewrite <- Hit, length_fmap.
Qed.

(** X22.  With double tap on, in a mode other than "disabled", two taps
    less than 300 milliseconds apart on a message whose collected list holds
    no [undefined] show the menu, whenever the first tap happened, and the
    time of the second tap is recorded; a right-click does nothing. *)
Theorem double_tap_shows_menu p e t1 t2 :
  menu_mode_is p "disabled" = false →
  setting_truthy (get_settings p "double_tap") = true →
  Undefined ∉ collected p (target_message e)
                (bool_decide (0 < length (edit_textarea (target_message e)))%nat) →
  0 < t2 - t1 < 300 →
  menu_visible (run layout p [touchend e t1; touchend e t2]) = true
  ∧ last_tap (run layout p [touchend e t1; touchend e t2]) = t2
  ∧ step layout p (contextmenu e) = p.
Proof.
  intros Hd Hdt Hdef Ht.
  assert (Hfirst : ∃ q, step layout p (touchend e t1) = q
                        ∧ extension_settings q = extension_settings p
                        ∧ last_tap q = t1).
  { eexists. split; [reflexivity|]. cbn [step]. unfold on_touchend. rewrite Hdt.
    destruct ((t1 - last_tap p <? 300) && (t1 - last_tap p >? 0)).
    - destruct (handle_interaction_enabled p e Hd Hdef) as (Hc & Hs & _).
      destruct (handle_interaction layout p e) as [q c]. cbn [snd fst] in *. subst c.
      cbn. by split.
    - by split. }
  destruct Hfirst as (q & Hq & Hs & Htap).
  change (run layout p [touchend e t1; touchend e t2])
    with (step layout (step layout p (touchend e t1)) (touchend e t2)).
  rewrite Hq.
  assert (Hdq : menu_mode_is q "disabled" = false)
    by (by rewrite (menu_mode_is_settings q p)).
  assert (Hdtq : setting_truthy (get_settings q "double_tap") = true)
    by (unfold get_settings in *; by rewrite Hs).
  assert (Hdefq : Undefined ∉ collected q (target_message e)
            (bool_decide (0 < length (edit_textarea (target_message e)))%nat))
    by (by rewrite (collected_any_page q p)).
  cbn [step]. unfold on_touchend. rewrite Htap, Hdtq.
  destruct (Z.ltb_spec (t2 - t1) 300); [|lia].
  destruct (Z.gtb_spec (t2 - t1) 0); [|lia]. cbn [andb].
  destruct (handle_interaction_enabled q e Hdq Hdefq) as (Hc & _ & _ & mn & Hm & Hvis & _).
  destruct (handle_interaction layout q e) as [q2 c]. cbn [snd fst] in *. subst c.
  cbn [fst]. split; [|split].
  - unfold menu_visible. cbn [set_last_tap the_menu]. by rewrite Hm, Hvis.
  - reflexivity.
  - unfold on_contextmenu. by rewrite Hdt.
Qed.

End ControllerMore.

Lemma set_menu_position_inside_witness :
  ∃ mn mn',
    the_menu Scenario.open_page = Some mn
    ∧ the_menu (fst (set_menu_position Scenario.fixed_layout Scenario.open_page
                                       (Some 300) (Some 100))) = Some mn'
    ∧ inside (left mn') (fst (getBoundingClientRect Scenario.fixed_layout mn))
             (fst (screen Scenario.open_page))
    ∧ inside (top mn') (snd (getBoundingClientRect Scenario.fixed_layout mn))
             (snd (screen Scenario.open_page)).
Proof.
  destruct (the_menu Scenario.open_page) as [mn|] eqn:Hm;
    [|vm_compute in Hm; discriminate].
  assert (Hvis : display_none mn = false).
  { assert (H : display_none <$> the_menu Scenario.open_page = Some false)
      by (vm_compute; reflexivity).
    rewrite Hm in H. by injection H. }
  assert (Hrect : getBoundingClientRect Scenario.fixed_layout mn = (220, 100))
    by (unfold getBoundingClientRect; rewrite Hvis; reflexivity).
  assert (Hscreen : screen Scenario.open_page = (400, 800))
    by (vm_compute; reflexivity).
  destruct (set_menu_position_inside Scenario.fixed_layout Scenario.open_page mn 300 100 Hm)
    as (mn' & Hm' & Hin); rewrite ?Hrect, ?Hscreen; cbn [fst snd]; try lia.
  exists mn, mn'. split; [reflexivity|]. split; [exact Hm' | exact Hin].
Defined.

Lemma menu_shown_by_gesture_only_witness :
  menu_mode_is Scenario.fresh_page "disabled" = false
  ∧ ((∃ e, Scenario.right_click = contextmenu e
           ∧ setting_truthy (get_settings Scenario.fresh_page "double_tap") = false)
     ∨ (∃ e t, Scenario.right_click = touchend e t
               ∧ setting_truthy (get_settings Scenario.fresh_page "double_tap") = true
               ∧ 0 < t - last_tap Scenario.fresh_page < 300)).
Proof.
  apply (menu_shown_by_gesture_only Scenario.fixed_layout Scenario.fresh_page
           Scenario.right_click).
  - vm_compute. reflexivity.
  - vm_compute. reflexivity.
Defined.

Lemma item_activation_witness :
  menu_visible (activate Scenario.open_page (make_item true Scenario.b0)) = false.
Proof.
  apply (proj2 (proj2 (item_activation Scenario.open_page
                         (make_item true Scenario.b0)))).
  vm_compute. reflexivity.
Defined.

Lemma right_click_shows_menu_witness :
  menu_visible (step Scenario.fixed_layout Scenario.page_with_hidden_button
                     Scenario.right_click) = true
  ∧ ∃ mn, the_menu (step Scenario.fixed_layout Scenario.page_with_hidden_button
                         Scenario.right_click) = Some mn
          ∧ source <$> items mn
            = [Scenario.edit_button; Scenario.b0; Scenario.edit_button;
               Scenario.b3; Scenario.delete_button]
          ∧ menu_nodes (items mn) = Some (replicate 5 (TopElement Div)).
Proof.
  destruct (right_click_shows_menu Scenario.fixed_layout Scenario.page_with_hidden_button
              (PointerEvent Scenario.five_buttons (Some 200) (Some 100)))
    as (Hvis & mn & Hm & Hsource & Hnodes).
  - vm_compute. reflexivity.
  - vm_compute. reflexivity.
  - apply (bool_decide_unpack _). vm_compute. exact I.
  - split; [exact Hvis|]. exists mn. split; [exact Hm|].
    split; [rewrite Hsource; vm_compute; reflexivity|].
    rewrite Hnodes; [vm_compute; reflexivity|].
    assert (Hplain : from_option (fun m => bool_decide (Forall plain_item (items m)))
                       false
                       (the_menu (step Scenario.fixed_layout
                                    Scenario.page_with_hidden_button
                                    Scenario.right_click)) = true)
      by (vm_compute; reflexivity).
    unfold Scenario.right_click in Hplain. rewrite Hm in Hplain.
    by apply bool_decide_eq_true in Hplain.
Defined.

Lemma double_tap_shows_menu_witness :
  menu_visible (run Scenario.fixed_layout Scenario.double_tap_page
                    [touchend (PointerEvent Scenario.five_buttons None None) 1000;
                     touchend (PointerEvent Scenario.five_buttons None None) 1200])
  = true
  ∧ last_tap (run Scenario.fixed_layout Scenario.double_tap_page
                  [touchend (PointerEvent Scenario.five_buttons None None) 1000;
                   touchend (PointerEvent Scenario.five_buttons None None) 1200])
    = 1200
  ∧ step Scenario.fixed_layout Scenario.double_tap_page
         (contextmenu (PointerEvent Scenario.five_buttons None None))
    = Scenario.double_tap_page.
Proof.
  apply (double_tap_shows_menu Scenario.fixed_layout Scenario.double_tap_page
           (PointerEvent Scenario.five_buttons None None) 1000 1200).
  - vm_compute. reflexivity.
  - vm_compute. reflexivity.
  - apply (bool_decide_unpack _). vm_compute. exact I.
  - lia.
Defined.

Lemma handle_interaction_from_hidden_witness :
  ∃ mn, the_menu (fst (handle_interaction Scenario.fixed_layout Scenario.fresh_page
                         (PointerEvent Scenario.five_buttons (Some 300) (Some 100))))
        = Some mn
        ∧ display_none mn = false ∧ left mn = Some 300 ∧ top mn = Some 100.
Proof.
  apply (handle_interaction_from_hidden Scenario.fixed_layout Scenario.fresh_page
           (PointerEvent Scenario.five_buttons (Some 300) (Some 100)) 300 100).
  - vm_compute. reflexivity.
  - reflexivity.
  - apply (bool_decide_unpack _). vm_compute. exact I.
  - reflexivity.
  - reflexivity.
  - vm_compute. discriminate.
  - vm_compute. discriminate.
Defined.
